(** * kube-rbac-proxy: the authorization decision engine

    A shallow embedding of the authorizer strategies, the attribute
    generators, the rewrite parameter extractor and the composition roots of
    kube-rbac-proxy, followed by the properties checked against them.

    Go values are modelled as follows.  A [string] is a Rocq [string]; a slice
    is a [list] (the nil slice and the empty slice are both [[]], the code
    only ever asks for [len]); a pointer that the code compares with [nil] is
    an [option]; a Go map is a [gmap]; [sets.String] is a [gset string]; a
    triple [(Decision, string, error)] is a Rocq triple whose last component is
    an [option error]; a call that may panic returns an [Outcome]. *)

From Stdlib Require Import Ascii String.
From stdpp Require Import base option list strings gmap.

Local Open Scope string_scope.
Local Open Scope list_scope.

#[local] Set Warnings "-clear-no-such-hyp".

(** ** Values shared by all packages *)

(** [authorizer.Decision]: the constants are declared with [iota] in this
    order, so the zero value of a [Decision] variable is [DecisionDeny]. *)
Inductive Decision : Type :=
  | DecisionDeny
  | DecisionAllow
  | DecisionNoOpinion.

#[global] Instance Decision_eq_dec : EqDecision Decision.
Proof. solve_decision. Defined.

(** Go [error] values.  [errorString] is what [errors.New] and a
    [fmt.Errorf] without [%w] build; [wrapError prefix cause] stands for
    [fmt.Errorf(prefix + ": %w", cause)]; [aggregate] is the result of
    [utilerrors.NewAggregate] on a non-empty list. *)
#[warnings="-register-all"]
Inductive error : Type :=
  | errorString (msg : string)
  | wrapError (prefix : string) (cause : error)
  | aggregate (errs : list error).

(** The value carried by a panic: an explicit [panic(err)], or a run-time
    error such as a nil pointer dereference. *)
Inductive PanicValue : Type :=
  | panicError (e : error)
  | runtimeError (msg : string).

(** The run-time panic of a nil pointer dereference. *)
Definition nilDereference : PanicValue :=
  runtimeError "invalid memory address or nil pointer dereference".

(** The outcome of a call that either returns or panics. *)
Inductive Outcome (A : Type) : Type :=
  | Returned (a : A)
  | Panicked (v : PanicValue).
Arguments Returned {A} a.
Arguments Panicked {A} v.

Definition Outcome_bind {A B : Type} (o : Outcome A) (k : A → Outcome B) : Outcome B :=
  match o with
  | Returned a => k a
  | Panicked v => Panicked v
  end.

(** [user.Info], as [user.DefaultInfo] implements it. *)
Record UserInfo : Type := mkUserInfo {
  UserName : string;
  UID : string;
  Groups : list string;
  Extra : gmap string (list string)
}.

(** [authorizer.AttributesRecord].  [User] is an interface value and may be
    nil. *)
Record Attributes : Type := mkAttributes {
  User : option UserInfo;
  Verb : string;
  Namespace : string;
  APIGroup : string;
  APIVersion : string;
  Resource : string;
  Subresource : string;
  Name : string;
  ResourceRequest : bool;
  Path : string
}.

(** What an [Authorize] call returns: decision, reason, error. *)
Definition Result : Type := Decision * string * option error.

(** [strings.TrimPrefix(s, "/")]. *)
Definition TrimPrefixSlash (s : string) : string :=
  match s with
  | String c rest => if decide (c = "/"%char) then rest else s
  | EmptyString => s
  end.

(** [strings.ContainsRune(s, '*')]. *)
Fixpoint ContainsStar (s : string) : bool :=
  match s with
  | EmptyString => false
  | String c rest => if decide (c = "*"%char) then true else ContainsStar rest
  end.

(** [strings.Join]. *)
Fixpoint Join (elems : list string) (sep : string) : string :=
  match elems with
  | [] => ""
  | [x] => x
  | x :: rest => x +:+ sep +:+ Join rest sep
  end.

(** ** Library functions the packages call

    The Go standard library functions below are not part of the repository.
    The embedding takes them as parameters, so every statement proved about
    the repository's code holds for whatever they compute.  Two facts about
    the template packages are built in, because the code relies on them:
    [Parse] returns either a template or an error, and [Execute] on the nil
    template dereferences it. *)

(** [path.Match(pattern, name)]: whether the shell pattern matches, and the
    error for a malformed pattern. *)
Class PathMatch : Type :=
  path_Match : string → string → bool * option error.

(** [textproto.CanonicalMIMEHeaderKey]. *)
Class MIMEHeaderKey : Type :=
  CanonicalMIMEHeaderKey : string → string.

(** The two template packages of the standard library: the packages under
    pkg/authorization import [text/template], pkg/authz imports
    [html/template]. *)
Inductive TemplatePackage : Type :=
  | text_template
  | html_template.

(** A template package, for a template named "valueTemplate" executed on
    [struct{ Value string }].  [parse] is [template.New("valueTemplate").Parse]:
    it gives the parsed template, or the error.  [execute] is [Execute] on a
    parsed template: what was written to the buffer, and the error, which is
    how both packages report an execution that fails. *)
Class TemplateEngine (pkg : TemplatePackage) : Type := {
  Template : Type;
  parse : string → Template + error;
  execute : Template → string → string * option error
}.
Arguments Template pkg {_}.
Arguments parse pkg {_} _.
Arguments execute pkg {_} _ _.

(** [Parse] as the code calls it, returning the template pointer and the
    error: the pointer is nil when there is an error, and the error is nil
    when there is none. *)
Definition Parse (pkg : TemplatePackage) `{!TemplateEngine pkg} (text : string)
  : option (Template pkg) * option error :=
  match parse pkg text with
  | inl t => (Some t, None)
  | inr e => (None, Some e)
  end.

(** [Execute] as the code calls it, on a template pointer: the method reads
    the fields of its receiver, so on the nil pointer it panics with a nil
    pointer dereference. *)
Definition Execute (pkg : TemplatePackage) `{!TemplateEngine pkg}
    (tmpl : option (Template pkg)) (value : string) : Outcome (string * option error) :=
  match tmpl with
  | Some t => Returned (execute pkg t value)
  | None => Panicked nilDereference
  end.

(** [hasAction s]: the text contains the left delimiter of an action. *)
Fixpoint hasAction (s : string) : bool :=
  match s with
  | String c (String d _ as rest) =>
      if decide (c = "{"%char ∧ d = "{"%char) then true else hasAction rest
  | _ => false
  end.

(** The one fact about [text/template] that the property of plain fields
    rests on, and a hypothesis of that property: a text without an action
    parses, and executes to itself.  It is not assumed of [html/template],
    which refuses to execute a text that ends inside a tag. *)
Class TextTemplateLaws `{!TemplateEngine text_template} : Prop := {
  plain_text_renders : ∀ s : string,
    hasAction s = false →
    ∃ t, parse text_template s = inl t ∧ ∀ v, execute text_template t v = (s, None)
}.

(** ** Package authz (pkg/authz/auth.go): the static matcher *)

Module authz.

Record UserConfig : Type := mkUserConfig {
  UserConfig_Name : string;
  UserConfig_Groups : list string
}.

Record StaticAuthorizationConfig : Type := mkStatic {
  Static_User : UserConfig;
  Static_Verb : string;
  Static_Namespace : string;
  Static_APIGroup : string;
  Static_Resource : string;
  Static_Subresource : string;
  Static_Name : string;
  Static_ResourceRequest : bool;
  Static_Path : string
}.

(** What the verb [%v] of package fmt prints for the values that
    [NewStaticAuthorizer] formats: a string as it is, a boolean as [true] or
    [false], a slice between brackets and a struct between braces, their
    elements and fields separated by one space. *)
Definition Sprint_bool (b : bool) : string :=
  if b then "true" else "false".

Definition Sprint_strings (l : list string) : string :=
  "[" +:+ Join l " " +:+ "]".

Definition Sprint_UserConfig (u : UserConfig) : string :=
  "{" +:+ UserConfig_Name u +:+ " " +:+ Sprint_strings (UserConfig_Groups u) +:+ "}".

Definition Sprint_StaticAuthorizationConfig (c : StaticAuthorizationConfig) : string :=
  "{" +:+ Sprint_UserConfig (Static_User c) +:+ " " +:+ Static_Verb c +:+ " " +:+
  Static_Namespace c +:+ " " +:+ Static_APIGroup c +:+ " " +:+ Static_Resource c +:+ " " +:+
  Static_Subresource c +:+ " " +:+ Static_Name c +:+ " " +:+
  Sprint_bool (Static_ResourceRequest c) +:+ " " +:+ Static_Path c +:+ "}".

Definition Sprint_config (config : list StaticAuthorizationConfig) : string :=
  "[" +:+ Join (Sprint_StaticAuthorizationConfig <$> config) " " +:+ "]".

(** [templateWithValue] of this package, which imports [html/template]. *)
Definition templateWithValue `{!TemplateEngine html_template} (templateString value : string)
  : Outcome string :=
  let '(tmpl, _) := Parse html_template templateString in
  Outcome_bind (Execute html_template tmpl value) (λ '(out, err),
    match err with
    | Some _ => Returned ""
    | None => Returned out
    end).

(** The closure [isAllowed] of [Matches]. *)
Definition isAllowed (staticConf requestVal : string) : bool :=
  if decide (staticConf = "") then true
  else bool_decide (staticConf = requestVal).

Definition Matches (saConfig : StaticAuthorizationConfig) (a : Attributes) : bool :=
  let userName :=
    match User a with
    | Some u => UserName u
    | None => ""
    end in
  if isAllowed (UserConfig_Name (Static_User saConfig)) userName &&
     isAllowed (Static_Verb saConfig) (Verb a) &&
     isAllowed (Static_Namespace saConfig) (Namespace a) &&
     isAllowed (Static_APIGroup saConfig) (APIGroup a) &&
     isAllowed (Static_Resource saConfig) (Resource a) &&
     isAllowed (Static_Subresource saConfig) (Subresource a) &&
     isAllowed (Static_Name saConfig) (Name a) &&
     isAllowed (Static_Path saConfig) (Path a) &&
     bool_decide (Static_ResourceRequest saConfig = ResourceRequest a)
  then true
  else false.

(** [staticAuthorizer.Authorize], on the rule list the authorizer holds. *)
Fixpoint Authorize (config : list StaticAuthorizationConfig) (a : Attributes) : Result :=
  match config with
  | [] => (DecisionNoOpinion, "", None)
  | saConfig :: rest =>
      if Matches saConfig a
      then (DecisionAllow, "found corresponding static auth config", None)
      else Authorize rest a
  end.

(** The loop of [NewStaticAuthorizer]: whether some rule makes it return
    the error. *)
Fixpoint firstInvalid (config : list StaticAuthorizationConfig) : bool :=
  match config with
  | [] => false
  | c :: rest =>
      if negb (bool_decide (Static_ResourceRequest c = bool_decide (Static_Path c = "")))
      then true
      else firstInvalid rest
  end.

(** [NewStaticAuthorizer]: the authorizer it returns holds the rule list
    unchanged, so it is modelled by that list.  The error text ends with the
    whole configuration, printed with [%v]. *)
Definition NewStaticAuthorizer (config : list StaticAuthorizationConfig)
  : list StaticAuthorizationConfig + error :=
  if firstInvalid config
  then inr (errorString
              ("invalid configuration: resource requests must not include a path: " +:+
               Sprint_config config))
  else inl config.

End authz.

(** ** Requests, contexts and configuration records *)

(** The parts of [*http.Request] the code reads: the method, [URL.Path], the
    parsed query [URL.Query()] and the header map. *)
Record Request : Type := mkRequest {
  Method : string;
  URL_Path : string;
  URL_Query : gmap string (list string);
  Header : gmap string (list string)
}.

(** The request context: the slot keyed by [rewriterParams], holding the
    extracted rewrite parameters when it was set. *)
Record Context : Type := mkContext {
  ctx_rewriterParams : option (list string)
}.

Record ResourceAttributes : Type := mkResourceAttributes {
  RA_Namespace : string;
  RA_APIGroup : string;
  RA_APIVersion : string;
  RA_Resource : string;
  RA_Subresource : string;
  RA_Name : string
}.

Record QueryParameterRewriteConfig : Type := mkQueryParameterRewriteConfig {
  QueryParameter_Name : string
}.

Record HTTPHeaderRewriteConfig : Type := mkHTTPHeaderRewriteConfig {
  HTTPHeader_Name : string
}.

Record SubjectAccessReviewRewrites : Type := mkRewrites {
  ByQueryParameter : option QueryParameterRewriteConfig;
  ByHTTPHeader : option HTTPHeaderRewriteConfig
}.

Record RewriteAttributesConfig : Type := mkRewriteAttributesConfig {
  Rewrites : option SubjectAccessReviewRewrites;
  Config_ResourceAttributes : option ResourceAttributes;
  ResourceAttributesFile : string
}.

(** ** Authorizers

    [authorizer.Authorizer] is an interface with the one method [Authorize].
    The delegate behind it (the SubjectAccessReview client) has state of its
    own, of some type [St]; an authorizer is a function that threads it. *)

Definition M (St A : Type) : Type := St → Outcome A * St.

Definition M_ret {St A : Type} (a : A) : M St A :=
  λ s, (Returned a, s).

Definition M_bind {St A B : Type} (m : M St A) (k : A → M St B) : M St B :=
  λ s, match m s with
       | (Returned a, s') => k a s'
       | (Panicked v, s') => (Panicked v, s')
       end.

Definition M_lift {St A : Type} (o : Outcome A) : M St A :=
  λ s, (o, s).

Notation "'let*' x ':=' m 'in' k" := (M_bind m (λ x, k))
  (at level 10, x name, m at level 100, k at level 200, only parsing).

Definition Authorizer (St : Type) : Type := Context → Attributes → M St Result.

(** An authorizer that neither reads the context nor touches the state. *)
Definition pureAuthorizer {St : Type} (f : Attributes → Result) : Authorizer St :=
  λ _ a, M_ret (f a).

(** ** Package path (pkg/authorization/path/path.go) *)

Module path.
Section evaluator.
Context `{PathMatch}.

Record pathAuthorizer : Type := mkPathAuthorizer {
  matchDecision : Decision;
  noMatchDecision : Decision;
  paths : gset string;
  pathPatterns : list string
}.

Definition noopAuthorizer : Attributes → Result :=
  λ _, (DecisionNoOpinion, "", None).

(** The loop of [newPathAuthorizer] over [inputPaths], on the set and
    the pattern list built so far. *)
Fixpoint partition (inputPaths : list string) (paths : gset string) (patterns : list string)
  : gset string * list string :=
  match inputPaths with
  | [] => (paths, patterns)
  | p :: rest =>
      let p := TrimPrefixSlash p in
      if decide (String.length p = 0) then partition rest ({[p]} ∪ paths) patterns
      else if ContainsStar p then partition rest paths (patterns ++ [p])
      else partition rest ({[p]} ∪ paths) patterns
  end.

Definition newPathAuthorizer (onMatch onNoMatch : Decision) (inputPaths : list string)
  : pathAuthorizer :=
  let '(paths, patterns) := partition inputPaths ∅ [] in
  {| matchDecision := onMatch;
     noMatchDecision := onNoMatch;
     paths := paths;
     pathPatterns := patterns |}.

(** The loop of [Authorize] over [a.pathPatterns]. *)
Fixpoint matchPatterns (a : pathAuthorizer) (patterns : list string) (pth : string) : Result :=
  match patterns with
  | [] => (noMatchDecision a, "", None)
  | pattern :: rest =>
      let '(found, err) := path_Match pattern pth in
      match err with
      | Some e => (DecisionNoOpinion, "Error", Some e)
      | None =>
          if found then (matchDecision a, "", None)
          else matchPatterns a rest pth
      end
  end.

Definition Authorize (a : pathAuthorizer) (attr : Attributes) : Result :=
  let pth := TrimPrefixSlash (Path attr) in
  if bool_decide (pth ∈ paths a) then (matchDecision a, "", None)
  else matchPatterns a (pathPatterns a) pth.

Definition NewAllowPathAuthorizer (allowPaths : list string) : Attributes → Result :=
  if decide (length allowPaths = 0) then noopAuthorizer
  else Authorize (newPathAuthorizer DecisionNoOpinion DecisionDeny allowPaths).

Definition NewAlwaysAllowPathAuthorizer (alwaysAllowPaths : list string) : Attributes → Result :=
  Authorize (newPathAuthorizer DecisionAllow DecisionNoOpinion alwaysAllowPaths).

End evaluator.
End path.

(** ** Package rewrite, decomposed pipeline
    (the attribute generators and the delegating authorizer, and
    pkg/authorization/rewrite/middleware.go) *)

(** The coordinates both authorizers print for an attribute set: the format
    arguments are [GetName()], [GetVerb()], [GetResource()] and
    [GetSubresource()], in this order. *)
Definition coordinates (attr : Attributes) : string :=
  "(user=" +:+ Name attr +:+ ", verb=" +:+ Verb attr +:+
  ", resource=" +:+ Resource attr +:+ ", subresource=" +:+ Subresource attr +:+ ")".

Definition AttributesGenerator : Type := Context → Attributes → Outcome (list Attributes).

Module rewrite.

(** *** middleware.go *)

Section middleware.
Context `{MIMEHeaderKey}.

Definition requestToParams (config : option RewriteAttributesConfig) (req : Request)
  : list string :=
  let params : list string := [] in
  match config with
  | None => []
  | Some config =>
      match Rewrites config with
      | None => []
      | Some rewrites =>
          let params :=
            match ByQueryParameter rewrites with
            | Some q =>
                if decide (QueryParameter_Name q ≠ "") then
                  match URL_Query req !! QueryParameter_Name q with
                  | Some ps => params ++ ps
                  | None => params
                  end
                else params
            | None => params
            end in
          let params :=
            match ByHTTPHeader rewrites with
            | Some h =>
                if decide (HTTPHeader_Name h ≠ "") then
                  let mimeHeader := Header req in
                  let mimeKey := CanonicalMIMEHeaderKey (HTTPHeader_Name h) in
                  match mimeHeader !! mimeKey with
                  | Some ps => params ++ ps
                  | None => params
                  end
                else params
            | None => params
            end in
          params
      end
  end.

Definition WithKubeRBACProxyParams (ctx : Context) (params : list string) : Context :=
  {| ctx_rewriterParams := Some params |}.

Definition GetKubeRBACProxyParams (ctx : Context) : list string :=
  match ctx_rewriterParams ctx with
  | Some params => params
  | None => []
  end.

(** [WithKubeRBACProxyParamsHandler]: the context the wrapped handler
    is served with. *)
Definition WithKubeRBACProxyParamsHandler (config : option RewriteAttributesConfig)
    (req : Request) (ctx : Context) : Context :=
  WithKubeRBACProxyParams ctx (requestToParams config req).

End middleware.

(** *** The attribute generators *)

Section generators.
Context `{!TemplateEngine text_template}.

Definition templateWithValue (templateString value : string) : Outcome string :=
  let '(tmpl, _) := Parse text_template templateString in
  Outcome_bind (Execute text_template tmpl value) (λ '(out, err),
    match err with
    | Some _ => Returned ""
    | None => Returned out
    end).

Definition DefaultAttributesGenerator_Generate : AttributesGenerator :=
  λ ctx attr,
    Returned
      [ {| User := User attr;
           Verb := Verb attr;
           Namespace := "";
           APIGroup := "";
           APIVersion := "";
           Resource := "";
           Subresource := "";
           Name := "";
           ResourceRequest := false;
           Path := Path attr |} ].

(** The generator holds a pointer to the resource attributes, which
    [Generate] dereferences. *)
Definition BoundAttributesGenerator_Generate (attributes : option ResourceAttributes)
  : AttributesGenerator :=
  λ ctx attr,
    match attributes with
    | None => Panicked nilDereference
    | Some attributes =>
        Returned
          [ {| User := User attr;
               Verb := Verb attr;
               Namespace := RA_Namespace attributes;
               APIGroup := RA_APIGroup attributes;
               APIVersion := RA_APIVersion attributes;
               Resource := RA_Resource attributes;
               Subresource := RA_Subresource attributes;
               Name := RA_Name attributes;
               ResourceRequest := true;
               Path := "" |} ]
    end.

(** One iteration of the loop of [RewritingAttributesGenerator.Generate]:
    the record appended for [param].  The fields of the composite literal
    are evaluated in the order they are written. *)
Definition rewritten (attributes : ResourceAttributes) (attr : Attributes) (param : string)
  : Outcome Attributes :=
  Outcome_bind (templateWithValue (RA_Namespace attributes) param) (λ namespace,
  Outcome_bind (templateWithValue (RA_APIGroup attributes) param) (λ apiGroup,
  Outcome_bind (templateWithValue (RA_APIVersion attributes) param) (λ apiVersion,
  Outcome_bind (templateWithValue (RA_Resource attributes) param) (λ resource,
  Outcome_bind (templateWithValue (RA_Subresource attributes) param) (λ subresource,
  Outcome_bind (templateWithValue (RA_Name attributes) param) (λ name,
    Returned
      {| User := User attr;
         Verb := Verb attr;
         Namespace := namespace;
         APIGroup := apiGroup;
         APIVersion := apiVersion;
         Resource := resource;
         Subresource := subresource;
         Name := name;
         ResourceRequest := true;
         Path := "" |})))))).

Fixpoint rewriteEach (attributes : ResourceAttributes) (attr : Attributes)
    (params : list string) (attrs : list Attributes) : Outcome (list Attributes) :=
  match params with
  | [] => Returned attrs
  | param :: rest =>
      Outcome_bind (rewritten attributes attr param) (λ record,
        rewriteEach attributes attr rest (attrs ++ [record]))
  end.

Definition RewritingAttributesGenerator_Generate (attributes : option ResourceAttributes)
  : AttributesGenerator :=
  λ ctx attr,
    let params := GetKubeRBACProxyParams ctx in
    if decide (length params = 0) then Returned []
    else
      match attributes with
      | None => Panicked nilDereference
      | Some attributes => rewriteEach attributes attr params []
      end.

End generators.

(** *** The delegating authorizer *)

Section delegateAuthorizer.
Context {St : Type}.

(** The loop of [delegateAuthorizer.Authorize] and the two returns that
    follow it; [authorized] is the named result, which the loop
    overwrites at every iteration. *)
Fixpoint authorizeEach (delegate : Authorizer St) (ctx : Context)
    (authorized : Decision) (attrs : list Attributes) : M St Result :=
  match attrs with
  | [] =>
      if decide (authorized = DecisionAllow) then M_ret (authorized, "", None)
      else M_ret (DecisionDeny, "No attribute combination matched", None)
  | attr :: rest =>
      let* r := delegate ctx attr in
      let '(authorized, reason, err) := r in
      match err with
      | Some e =>
          M_ret (DecisionDeny, "AuthorizationError",
                 Some (wrapError ("authorization error " +:+ coordinates attr) e))
      | None =>
          if decide (authorized ≠ DecisionAllow)
          then M_ret (DecisionDeny, "Forbidden " +:+ coordinates attr +:+ ": " +:+ reason, None)
          else authorizeEach delegate ctx authorized rest
      end
  end.

Definition Authorize (delegate : Authorizer St) (attrGen : AttributesGenerator)
  : Authorizer St :=
  λ ctx attr,
    let* attrs := M_lift (attrGen ctx attr) in
    authorizeEach delegate ctx DecisionDeny attrs.

Definition NewDelegateAuthorizer (delegate : Authorizer St) (attrGen : AttributesGenerator)
  : Authorizer St :=
  Authorize delegate attrGen.

End delegateAuthorizer.
End rewrite.

(** ** Package rewrite, single authorizer
    (pkg/authorization/config.go, second file: [rewritingAuthorizer]) *)

Module rewrite_config.

Section params.
Context `{MIMEHeaderKey}.

Definition requestToParams (config : option RewriteAttributesConfig) (req : Request)
  : list string :=
  let params : list string := [] in
  match config with
  | None => []
  | Some config =>
      match Rewrites config with
      | None => []
      | Some rewrites =>
          let params :=
            match ByQueryParameter rewrites with
            | Some q =>
                if decide (QueryParameter_Name q ≠ "") then
                  match URL_Query req !! QueryParameter_Name q with
                  | Some ps => params ++ ps
                  | None => params
                  end
                else params
            | None => params
            end in
          let params :=
            match ByHTTPHeader rewrites with
            | Some h =>
                if decide (HTTPHeader_Name h ≠ "") then
                  let mimeHeader := Header req in
                  let mimeKey := CanonicalMIMEHeaderKey (HTTPHeader_Name h) in
                  match mimeHeader !! mimeKey with
                  | Some ps => params ++ ps
                  | None => params
                  end
                else params
            | None => params
            end in
          params
      end
  end.

Definition WithKubeRBACProxyParams (ctx : Context) (params : list string) : Context :=
  {| ctx_rewriterParams := Some params |}.

Definition GetKubeRBACProxyParams (ctx : Context) : list string :=
  match ctx_rewriterParams ctx with
  | Some params => params
  | None => []
  end.

(** [WithKubeRBACProxyParamsHandler] of this file sets the slot only
    when some parameter was extracted. *)
Definition WithKubeRBACProxyParamsHandler (config : option RewriteAttributesConfig)
    (req : Request) (ctx : Context) : Context :=
  if decide (length (requestToParams config req) ≠ 0)
  then WithKubeRBACProxyParams ctx (requestToParams config req)
  else ctx.

End params.

Section rewritingAuthorizer.
Context `{!TemplateEngine text_template} {St : Type}.

Record rewritingAuthorizer : Type := mkRewritingAuthorizer {
  config : RewriteAttributesConfig;
  delegate : Authorizer St
}.

Definition NewRewritingAuthorizer (delegate : Authorizer St)
    (config : option RewriteAttributesConfig) : rewritingAuthorizer :=
  let rewriteConfig :=
    match config with
    | None => {| Rewrites := None; Config_ResourceAttributes := None;
                 ResourceAttributesFile := "" |}
    | Some c => c
    end in
  {| config := rewriteConfig; delegate := delegate |}.

Definition templateWithValue (templateString value : string) : Outcome string :=
  let '(tmpl, err) := Parse text_template templateString in
  match err with
  | Some e => Panicked (panicError e)
  | None =>
      Outcome_bind (Execute text_template tmpl value) (λ '(out, err),
        match err with
        | Some _ => Returned ""
        | None => Returned out
        end)
  end.

Definition rewritten (attributes : ResourceAttributes) (u : option UserInfo)
    (apiVerb param : string) : Outcome Attributes :=
  Outcome_bind (templateWithValue (RA_Namespace attributes) param) (λ namespace,
  Outcome_bind (templateWithValue (RA_APIGroup attributes) param) (λ apiGroup,
  Outcome_bind (templateWithValue (RA_APIVersion attributes) param) (λ apiVersion,
  Outcome_bind (templateWithValue (RA_Resource attributes) param) (λ resource,
  Outcome_bind (templateWithValue (RA_Subresource attributes) param) (λ subresource,
  Outcome_bind (templateWithValue (RA_Name attributes) param) (λ name,
    Returned
      {| User := u;
         Verb := apiVerb;
         Namespace := namespace;
         APIGroup := apiGroup;
         APIVersion := apiVersion;
         Resource := resource;
         Subresource := subresource;
         Name := name;
         ResourceRequest := true;
         Path := "" |})))))).

Fixpoint rewriteEach (attributes : ResourceAttributes) (u : option UserInfo)
    (apiVerb : string) (params : list string) (attrs : list Attributes)
  : Outcome (list Attributes) :=
  match params with
  | [] => Returned attrs
  | param :: rest =>
      Outcome_bind (rewritten attributes u apiVerb param) (λ record,
        rewriteEach attributes u apiVerb rest (attrs ++ [record]))
  end.

Definition getKubeRBACProxyAuthzAttributes (n : rewritingAuthorizer) (ctx : Context)
    (origAttrs : Attributes) : Outcome (list Attributes) :=
  let u := User origAttrs in
  let apiVerb := Verb origAttrs in
  let path := Path origAttrs in
  let attrs : list Attributes := [] in
  match Config_ResourceAttributes (config n) with
  | None =>
      Returned (attrs ++
        [ {| User := u; Verb := apiVerb;
             Namespace := ""; APIGroup := ""; APIVersion := ""; Resource := "";
             Subresource := ""; Name := "";
             ResourceRequest := false; Path := path |} ])
  | Some resourceAttributes =>
      match Rewrites (config n) with
      | None =>
          Returned (attrs ++
            [ {| User := u; Verb := apiVerb;
                 Namespace := RA_Namespace resourceAttributes;
                 APIGroup := RA_APIGroup resourceAttributes;
                 APIVersion := RA_APIVersion resourceAttributes;
                 Resource := RA_Resource resourceAttributes;
                 Subresource := RA_Subresource resourceAttributes;
                 Name := RA_Name resourceAttributes;
                 ResourceRequest := true; Path := "" |} ])
      | Some _ =>
          let params := GetKubeRBACProxyParams ctx in
          if decide (length params = 0) then Returned []
          else rewriteEach resourceAttributes u apiVerb params attrs
      end
  end.

(** The loop of [rewritingAuthorizer.Authorize] and the returns after
    it; [authorized] starts as the zero value of its declaration. *)
Fixpoint authorizeEach (delegate : Authorizer St) (ctx : Context)
    (authorized : Decision) (proxyAttrs : list Attributes) : M St Result :=
  match proxyAttrs with
  | [] =>
      if decide (authorized = DecisionAllow) then M_ret (authorized, "", None)
      else M_ret (DecisionDeny, "No attribute combination matched", None)
  | at_ :: rest =>
      let* r := delegate ctx at_ in
      let '(authorized, reason, err) := r in
      match err with
      | Some e =>
          M_ret (DecisionDeny, "AuthorizationError",
                 Some (wrapError ("authorization error " +:+ coordinates at_) e))
      | None =>
          if decide (authorized ≠ DecisionAllow)
          then M_ret (DecisionDeny, "Forbidden " +:+ coordinates at_ +:+ ": " +:+ reason, None)
          else authorizeEach delegate ctx authorized rest
      end
  end.

Definition Authorize (n : rewritingAuthorizer) : Authorizer St :=
  λ ctx attrs,
    let* proxyAttrs := M_lift (getKubeRBACProxyAuthzAttributes n ctx attrs) in
    if decide (length proxyAttrs = 0) then
      M_ret (DecisionDeny, "The request or configuration is malformed.",
             Some (errorString "bad request. The request or configuration is malformed"))
    else authorizeEach (delegate n) ctx DecisionDeny proxyAttrs.

End rewritingAuthorizer.
End rewrite_config.

(** ** The OR-combinator *)

(** [strings.Join(l, "\n")]. *)
Definition newline : string := String "010"%char "".

Fixpoint joinLines (l : list string) : string :=
  match l with
  | [] => ""
  | [x] => x
  | x :: rest => x +:+ newline +:+ joinLines rest
  end.

(** [utilerrors.NewAggregate]: nil for an empty list. *)
Definition NewAggregate (errlist : list error) : option error :=
  match errlist with
  | [] => None
  | _ => Some (aggregate errlist)
  end.

Section union.
Context {St : Type}.

(** Modelled from the spec: the OR-combinator of section 4.3, which is
    [union.New] of k8s.io/apiserver and lives in a dependency, not in the
    repository's sources.  The strategies are evaluated in order; the first
    decision that is not NoOpinion is returned as it is, with its reason and
    error, and the remaining strategies are not evaluated; when every
    strategy abstains the union returns NoOpinion, with the reasons joined
    and the errors aggregated. *)
Fixpoint unionAuthorize (handlers : list (Authorizer St)) (ctx : Context) (a : Attributes)
    (errlist : list error) (reasonlist : list string) : M St Result :=
  match handlers with
  | [] => M_ret (DecisionNoOpinion, joinLines reasonlist, NewAggregate errlist)
  | currAuthzHandler :: rest =>
      let* r := currAuthzHandler ctx a in
      let '(decision, reason, err) := r in
      let errlist := match err with Some e => errlist ++ [e] | None => errlist end in
      let reasonlist :=
        if decide (String.length reason ≠ 0) then reasonlist ++ [reason] else reasonlist in
      match decision with
      | DecisionAllow | DecisionDeny => M_ret (decision, reason, err)
      | DecisionNoOpinion => unionAuthorize rest ctx a errlist reasonlist
      end
  end.

Definition union_New (authorizationHandlers : list (Authorizer St)) : Authorizer St :=
  λ ctx a, unionAuthorize authorizationHandlers ctx a [] [].

End union.

(** ** Package authorization: the composition roots *)

Module authorization.

(** [AuthzConfig] embeds a pointer to the rewrite configuration; [Static]
    is a slice that the code compares with nil. *)
Record AuthzConfig : Type := mkAuthzConfig {
  Embedded_RewriteAttributesConfig : option RewriteAttributesConfig;
  Static : option (list authz.StaticAuthorizationConfig)
}.

(** [serverconfig.AuthorizationInfo], of which only the field
    [Authorizer] is read. *)
Record AuthorizationInfo (St : Type) : Type := mkAuthorizationInfo {
  AuthorizationInfo_Authorizer : Authorizer St
}.
Arguments AuthorizationInfo_Authorizer {St} _.
Arguments mkAuthorizationInfo {St} _.

(** [server.KubeRBACProxyInfo], the fields [setupAuthorizer] reads. *)
Record KubeRBACProxyInfo : Type := mkKubeRBACProxyInfo {
  Authorization : AuthzConfig;
  AllowPaths : list string;
  IgnorePaths : list string
}.

Section roots.
Context `{PathMatch} `{!TemplateEngine text_template} {St : Type}.

(** The first [switch] of [SetupAuthorizer]. *)
Definition pathSwitch (authz : list (Authorizer St)) (allowPaths ignorePaths : list string)
  : list (Authorizer St) + error :=
  if bool_decide (0 < length allowPaths) && bool_decide (0 < length ignorePaths)
  then inr (errorString "allow and ignore paths cannot be used together")
  else if bool_decide (0 < length allowPaths)
  then inl (authz ++ [pureAuthorizer (path.NewAllowPathAuthorizer allowPaths)])
  else if bool_decide (0 < length ignorePaths)
  then inl (authz ++ [pureAuthorizer (path.NewAlwaysAllowPathAuthorizer ignorePaths)])
  else inl authz.

(** The block guarded by [config.Static != nil].  [static.NewStaticAuthorizer]
    is the function of pkg/authz/auth.go, in the package it was moved to. *)
Definition staticStep (authz : list (Authorizer St))
    (static : option (list authz.StaticAuthorizationConfig))
  : list (Authorizer St) + error :=
  match static with
  | Some rules =>
      match authz.NewStaticAuthorizer rules with
      | inr err => inr (wrapError "failed to create static authorizer" err)
      | inl staticAuthorizer =>
          inl (authz ++ [pureAuthorizer (authz.Authorize staticAuthorizer)])
      end
  | None => inl authz
  end.

(** The second [switch]: reading [config.ResourceAttributes] goes
    through the embedded pointer. *)
Definition generatorSwitch (config : AuthzConfig) : Outcome AttributesGenerator :=
  match Embedded_RewriteAttributesConfig config with
  | None => Panicked nilDereference
  | Some rc =>
      if bool_decide (Config_ResourceAttributes rc ≠ None) && bool_decide (Rewrites rc = None)
      then Returned (rewrite.BoundAttributesGenerator_Generate (Config_ResourceAttributes rc))
      else if bool_decide (Config_ResourceAttributes rc ≠ None)
              && bool_decide (Rewrites rc ≠ None)
      then Returned (rewrite.RewritingAttributesGenerator_Generate (Config_ResourceAttributes rc))
      else Returned rewrite.DefaultAttributesGenerator_Generate
  end.

(** [SetupAuthorizer]: [config] and [delegate] are pointers, which the
    function dereferences without comparing them with nil, [config] first
    when it reads [config.Static] and [delegate] when it reads
    [delegate.Authorizer]. *)
Definition SetupAuthorizer (config : option AuthzConfig) (allowPaths ignorePaths : list string)
    (delegate : option (AuthorizationInfo St)) : Outcome (Authorizer St + error) :=
  let authz : list (Authorizer St) := [] in
  match pathSwitch authz allowPaths ignorePaths with
  | inr err => Returned (inr err)
  | inl authz =>
      match config with
      | None => Panicked nilDereference
      | Some config =>
          match staticStep authz (Static config) with
          | inr err => Returned (inr err)
          | inl authz =>
              match delegate with
              | None => Panicked nilDereference
              | Some delegate =>
                  let delegatedAuthz :=
                    union_New (authz ++ [AuthorizationInfo_Authorizer delegate]) in
                  Outcome_bind (generatorSwitch config) (λ attrsGenerator,
                    Returned (inl (rewrite.NewDelegateAuthorizer delegatedAuthz attrsGenerator)))
              end
          end
      end
  end.

(** The older root, pkg/authorization/authorization.go. *)
Definition setupAuthorizer (krbInfo : KubeRBACProxyInfo) (delegatedAuthz : AuthorizationInfo St)
  : Authorizer St + error :=
  match authz.NewStaticAuthorizer (default [] (Static (Authorization krbInfo))) with
  | inr err => inr (wrapError "failed to create static authorizer" err)
  | inl staticAuthorizer =>
      let authz : Authorizer St :=
        rewrite_config.Authorize
          (rewrite_config.NewRewritingAuthorizer
             (union_New [ pureAuthorizer (authz.Authorize staticAuthorizer);
                          AuthorizationInfo_Authorizer delegatedAuthz ])
             (Embedded_RewriteAttributesConfig (Authorization krbInfo))) in
      let authz :=
        if bool_decide (0 < length (AllowPaths krbInfo))
        then union_New [ pureAuthorizer (path.NewAllowPathAuthorizer (AllowPaths krbInfo)); authz ]
        else authz in
      let authz :=
        if bool_decide (0 < length (IgnorePaths krbInfo))
        then union_New [ pureAuthorizer (path.NewAlwaysAllowPathAuthorizer (IgnorePaths krbInfo)); authz ]
        else authz in
      inl authz
  end.

End roots.
End authorization.

(** ** The single-purpose authorizers
    (the default authorizer, and pkg/authorization/bound.go) *)

Module default_authorizer.
Section defaultAuthorizer.
Context {St : Type}.

(** [defaultAuthorizer.Authorize]; the authorizer holds its delegate. *)
Definition Authorize (delegate : Authorizer St) : Authorizer St :=
  λ ctx attrs,
    let u := User attrs in
    let apiVerb := Verb attrs in
    let path := Path attrs in
    let attrsRecord :=
      {| User := u; Verb := apiVerb;
         Namespace := ""; APIGroup := ""; APIVersion := ""; Resource := "";
         Subresource := ""; Name := "";
         ResourceRequest := false; Path := path |} in
    let* r := delegate ctx attrsRecord in
    let '(authorized, reason, err) := r in
    match err with
    | Some e =>
        M_ret (DecisionDeny, "AuthorizationError",
               Some (wrapError ("authorization error " +:+ coordinates attrsRecord) e))
    | None =>
        if decide (authorized ≠ DecisionAllow)
        then M_ret (DecisionDeny,
                    "Forbidden " +:+ coordinates attrsRecord +:+ ": " +:+ reason, None)
        else if decide (authorized = DecisionAllow)
        then M_ret (authorized, "", None)
        else M_ret (DecisionDeny, "No attribute combination matched", None)
    end.

Definition NewDefaultAuthorizer (delegate : Authorizer St) : Authorizer St :=
  Authorize delegate.

End defaultAuthorizer.
End default_authorizer.

Module bound.
Section ressourceBoundAuthorizer.
Context {St : Type}.

(** The authorizer holds the pointer to the configuration it was given. *)
Record ressourceBoundAuthorizer : Type := mkRessourceBoundAuthorizer {
  config : option RewriteAttributesConfig;
  delegate : Authorizer St
}.

Definition NewRessourceBoundAuthorizer (delegate : Authorizer St)
    (config : option RewriteAttributesConfig) : ressourceBoundAuthorizer :=
  {| config := config; delegate := delegate |}.

(** [ressourceBoundAuthorizer.Authorize]: building the record reads
    [n.config.ResourceAttributes] through both pointers. *)
Definition Authorize (n : ressourceBoundAuthorizer) : Authorizer St :=
  λ ctx attrs,
    let u := User attrs in
    let apiVerb := Verb attrs in
    match config n ≫= Config_ResourceAttributes with
    | None => M_lift (Panicked nilDereference)
    | Some resourceAttributes =>
        let proxyAttrs :=
          {| User := u; Verb := apiVerb;
             Namespace := RA_Namespace resourceAttributes;
             APIGroup := RA_APIGroup resourceAttributes;
             APIVersion := RA_APIVersion resourceAttributes;
             Resource := RA_Resource resourceAttributes;
             Subresource := RA_Subresource resourceAttributes;
             Name := RA_Name resourceAttributes;
             ResourceRequest := true; Path := "" |} in
        let* r := delegate n ctx proxyAttrs in
        let '(authorized, reason, err) := r in
        match err with
        | Some e =>
            M_ret (DecisionDeny, "AuthorizationError",
                   Some (wrapError ("authorization error " +:+ coordinates proxyAttrs) e))
        | None =>
            if decide (authorized ≠ DecisionAllow)
            then M_ret (DecisionDeny,
                        "Forbidden " +:+ coordinates proxyAttrs +:+ ": " +:+ reason, None)
            else if decide (authorized = DecisionAllow)
            then M_ret (authorized, "", None)
            else M_ret (DecisionDeny, "No attribute combination matched", None)
        end
    end.

End ressourceBoundAuthorizer.
End bound.

(** ** Package authz, request attributes (pkg/authz/auth.go) *)

Module authz_config.
Section GetRequestAttributes.
Context `{MIMEHeaderKey} `{!TemplateEngine html_template}.

Record Config : Type := mkConfig {
  Cfg_Rewrites : option SubjectAccessReviewRewrites;
  Cfg_ResourceAttributes : option ResourceAttributes;
  Cfg_ResourceAttributesFile : string;
  Cfg_Static : list authz.StaticAuthorizationConfig
}.

(** The [switch] on [r.Method]. *)
Definition apiVerbOf (method : string) : string :=
  if decide (method = "POST") then "create"
  else if decide (method = "GET") then "get"
  else if decide (method = "PUT") then "update"
  else if decide (method = "PATCH") then "patch"
  else if decide (method = "DELETE") then "delete"
  else "*".

(** The loop over [params]. *)
Fixpoint rewriteEach (resourceAttributes : ResourceAttributes) (u : option UserInfo)
    (apiVerb : string) (params : list string) (allAttrs : list Attributes)
  : Outcome (list Attributes) :=
  match params with
  | [] => Returned allAttrs
  | param :: rest =>
      Outcome_bind (authz.templateWithValue (RA_Namespace resourceAttributes) param) (λ namespace,
      Outcome_bind (authz.templateWithValue (RA_APIGroup resourceAttributes) param) (λ apiGroup,
      Outcome_bind (authz.templateWithValue (RA_APIVersion resourceAttributes) param) (λ apiVersion,
      Outcome_bind (authz.templateWithValue (RA_Resource resourceAttributes) param) (λ resource,
      Outcome_bind (authz.templateWithValue (RA_Subresource resourceAttributes) param) (λ subresource,
      Outcome_bind (authz.templateWithValue (RA_Name resourceAttributes) param) (λ name,
        let attrs :=
          {| User := u; Verb := apiVerb;
             Namespace := namespace; APIGroup := apiGroup; APIVersion := apiVersion;
             Resource := resource; Subresource := subresource; Name := name;
             ResourceRequest := true; Path := "" |} in
        rewriteEach resourceAttributes u apiVerb rest (allAttrs ++ [attrs])))))))
  end.

(** [Config.GetRequestAttributes]; the deferred logging is left out. *)
Definition GetRequestAttributes (c : Config) (u : option UserInfo) (r : Request)
  : Outcome (list Attributes) :=
  let apiVerb := apiVerbOf (Method r) in
  let allAttrs : list Attributes := [] in
  match Cfg_ResourceAttributes c with
  | None =>
      Returned (allAttrs ++
        [ {| User := u; Verb := apiVerb;
             Namespace := ""; APIGroup := ""; APIVersion := ""; Resource := "";
             Subresource := ""; Name := "";
             ResourceRequest := false; Path := URL_Path r |} ])
  | Some resourceAttributes =>
      match Cfg_Rewrites c with
      | None =>
          Returned (allAttrs ++
            [ {| User := u; Verb := apiVerb;
                 Namespace := RA_Namespace resourceAttributes;
                 APIGroup := RA_APIGroup resourceAttributes;
                 APIVersion := RA_APIVersion resourceAttributes;
                 Resource := RA_Resource resourceAttributes;
                 Subresource := RA_Subresource resourceAttributes;
                 Name := RA_Name resourceAttributes;
                 ResourceRequest := true; Path := "" |} ])
      | Some rewrites =>
          let params : list string := [] in
          let params :=
            match ByQueryParameter rewrites with
            | Some q =>
                if decide (QueryParameter_Name q ≠ "") then
                  match URL_Query r !! QueryParameter_Name q with
                  | Some ps => params ++ ps
                  | None => params
                  end
                else params
            | None => params
            end in
          let params :=
            match ByHTTPHeader rewrites with
            | Some h =>
                if decide (HTTPHeader_Name h ≠ "") then
                  let mimeHeader := Header r in
                  let mimeKey := CanonicalMIMEHeaderKey (HTTPHeader_Name h) in
                  match mimeHeader !! mimeKey with
                  | Some ps => params ++ ps
                  | None => params
                  end
                else params
            | None => params
            end in
          if decide (length params = 0) then Returned allAttrs
          else rewriteEach resourceAttributes u apiVerb params allAttrs
      end
  end.

End GetRequestAttributes.
End authz_config.

(** ** Package filters (pkg/filters) *)

(** [http.Header.Set]: the values under the canonical form of the key are
    replaced by the one value. *)
Definition Header_Set `{MIMEHeaderKey} (h : gmap string (list string)) (key value : string)
  : gmap string (list string) :=
  <[CanonicalMIMEHeaderKey key := [value]]> h.

Module filters.

(** What a handler leaves in the response writer: the status code and the
    body. *)
Record Response : Type := mkResponse {
  StatusCode : nat;
  Body : string
}.

(** [http.Error(w, error, code)], which writes the message and a newline;
    [http.NotFound]; [http.StatusText(http.StatusInternalServerError)]. *)
Definition http_Error (error : string) (code : nat) : Response :=
  {| StatusCode := code; Body := error +:+ newline |}.

Definition http_NotFound : Response := http_Error "404 page not found" 404.

Definition StatusText_InternalServerError : string := "Internal Server Error".

(** The values of the request context that the filters read and set: the
    user ([request.UserFrom], [request.WithUser]), the audiences
    ([authenticator.WithAudiences]) and the values the authorizers read. *)
Record RequestContext : Type := mkRequestContext {
  ctx_user : option UserInfo;
  ctx_audiences : option (list string);
  ctx_values : Context
}.

(** A request together with its context. *)
Record ServedRequest : Type := mkServedRequest {
  request : Request;
  context : RequestContext
}.

(** [http.Handler]: what [ServeHTTP] does with a request. *)
Definition Handler (St : Type) : Type := ServedRequest → M St Response.

(** [authenticator.Response] and [authenticator.Request]; the response
    pointer and the user in it may be nil. *)
Record AuthenticatorResponse : Type := mkAuthenticatorResponse {
  Response_Audiences : list string;
  Response_User : option UserInfo
}.

Definition Authenticator : Type :=
  ServedRequest → option AuthenticatorResponse * bool * option error.

(** [authn.AuthnHeaderConfig], the fields the filter reads. *)
Record AuthnHeaderConfig : Type := mkAuthnHeaderConfig {
  Enabled : bool;
  UserFieldName : string;
  GroupsFieldName : string;
  GroupSeparator : string
}.

Section filters.
Context `{PathMatch} `{MIMEHeaderKey} `{!TemplateEngine html_template} {St : Type}.

(** *** authz.go *)

(** The coordinates the filter prints, with the name of the user. *)
Definition coordinatesOf (u : UserInfo) (attrs : Attributes) : string :=
  "(user=" +:+ UserName u +:+ ", verb=" +:+ Verb attrs +:+
  ", resource=" +:+ Resource attrs +:+ ", subresource=" +:+ Subresource attrs +:+ ")".

(** The loop of [WithAuthorization] over [allAttrs], and the call of the
    handler after it. *)
Fixpoint authorizeEach (handler : Handler St) (authz : Authorizer St) (req : ServedRequest)
    (u : UserInfo) (allAttrs : list Attributes) : M St Response :=
  match allAttrs with
  | [] => handler req
  | attrs :: rest =>
      let* r := authz (ctx_values (context req)) attrs in
      let '(authorized, reason, err) := r in
      match err with
      | Some _ =>
          M_ret (http_Error ("Authorization error " +:+ coordinatesOf u attrs) 500)
      | None =>
          if decide (authorized ≠ DecisionAllow)
          then M_ret (http_Error ("Forbidden " +:+ coordinatesOf u attrs) 403)
          else authorizeEach handler authz req u rest
      end
  end.

Definition WithAuthorization (handler : Handler St) (authz : Authorizer St)
    (cfg : authz_config.Config) : Handler St :=
  λ req,
    match ctx_user (context req) with
    | None => M_ret (http_Error "user not in context" 401)
    | Some u =>
        let* allAttrs := M_lift (authz_config.GetRequestAttributes cfg (Some u) (request req)) in
        if decide (length allAttrs = 0)
        then M_ret (http_Error "Bad Request. The request or configuration is malformed." 400)
        else authorizeEach handler authz req u allAttrs
    end.

(** *** path.go *)

(** The loop of [WithAllowPaths]. *)
Fixpoint allowEach (handler : Handler St) (allowPaths : list string) (req : ServedRequest)
  : M St Response :=
  match allowPaths with
  | [] => M_ret http_NotFound
  | pathAllowed :: rest =>
      let '(found, err) := path_Match pathAllowed (URL_Path (request req)) in
      match err with
      | Some _ => M_ret (http_Error StatusText_InternalServerError 500)
      | None => if found then handler req else allowEach handler rest req
      end
  end.

Definition WithAllowPaths (handler : Handler St) (allowPaths : list string) : Handler St :=
  if decide (length allowPaths = 0) then handler
  else λ req, allowEach handler allowPaths req.

(** The loop of [WithIgnorePaths]. *)
Fixpoint ignoreEach (ignored handler : Handler St) (ignorePaths : list string)
    (req : ServedRequest) : M St Response :=
  match ignorePaths with
  | [] => handler req
  | pathIgnored :: rest =>
      let '(ignorePathFound, err) := path_Match pathIgnored (URL_Path (request req)) in
      match err with
      | Some _ => M_ret (http_Error StatusText_InternalServerError 500)
      | None => if ignorePathFound then ignored req else ignoreEach ignored handler rest req
      end
  end.

Definition WithIgnorePaths (ignored handler : Handler St) (ignorePaths : list string)
  : Handler St :=
  if decide (length ignorePaths = 0) then handler
  else λ req, ignoreEach ignored handler ignorePaths req.

(** *** The authentication filters *)

Definition WithAuthentication (handler : Handler St) (authReq : Authenticator)
    (audiences : list string) : Handler St :=
  λ req,
    let req :=
      if bool_decide (0 < length audiences)
      then {| request := request req;
              context := {| ctx_user := ctx_user (context req);
                            ctx_audiences := Some audiences;
                            ctx_values := ctx_values (context req) |} |}
      else req in
    let '(res, ok, err) := authReq req in
    match err with
    | Some _ => M_ret (http_Error "Unauthorized" 401)
    | None =>
        if negb ok then M_ret (http_Error "Unauthorized" 401)
        else
          match res with
          | None => M_lift (Panicked nilDereference)
          | Some res =>
              handler
                {| request := request req;
                   context := {| ctx_user := Response_User res;
                                 ctx_audiences := ctx_audiences (context req);
                                 ctx_values := ctx_values (context req) |} |}
          end
    end.

Definition WithAuthHeaders (handler : Handler St) (cfg : AuthnHeaderConfig) : Handler St :=
  if negb (Enabled cfg) then handler
  else λ req,
    match ctx_user (context req) with
    | Some u =>
        let header := Header_Set (Header (request req)) (UserFieldName cfg) (UserName u) in
        let header :=
          Header_Set header (GroupsFieldName cfg) (Join (Groups u) (GroupSeparator cfg)) in
        handler
          {| request := {| Method := Method (request req);
                           URL_Path := URL_Path (request req);
                           URL_Query := URL_Query (request req);
                           Header := header |};
             context := context req |}
    | None => handler req
    end.

End filters.
End filters.

(** ** The properties, in the words of the specification *)

Module spec.

(** An empty rule field matches any value; a non-empty one must be equal to
    the field of the attributes. *)
Definition fieldMatches (ruleField attrField : string) : Prop :=
  ruleField ≠ "" → ruleField = attrField.

(** The name of the user of an attributes value, empty without a user. *)
Definition userNameOf (a : Attributes) : string :=
  from_option UserName "" (User a).

(** A rule matches when each of its string fields matches and its
    [resourceRequest] is exactly that of the attributes. *)
Definition ruleMatches (r : authz.StaticAuthorizationConfig) (a : Attributes) : Prop :=
  fieldMatches (authz.UserConfig_Name (authz.Static_User r)) (userNameOf a) ∧
  fieldMatches (authz.Static_Verb r) (Verb a) ∧
  fieldMatches (authz.Static_Namespace r) (Namespace a) ∧
  fieldMatches (authz.Static_APIGroup r) (APIGroup a) ∧
  fieldMatches (authz.Static_Resource r) (Resource a) ∧
  fieldMatches (authz.Static_Subresource r) (Subresource a) ∧
  fieldMatches (authz.Static_Name r) (Name a) ∧
  fieldMatches (authz.Static_Path r) (Path a) ∧
  authz.Static_ResourceRequest r = ResourceRequest a.

(** The configuration-time invariant of a static rule. *)
Definition ruleWellFormed (r : authz.StaticAuthorizationConfig) : Prop :=
  authz.Static_ResourceRequest r = bool_decide (authz.Static_Path r = "").

(** The same attributes with another group list for the user, another API
    version; the same rule with another group list. *)
Definition withGroups (groups : list string) (a : Attributes) : Attributes :=
  {| User := (λ u, {| UserName := UserName u; UID := UID u; Groups := groups;
                      Extra := Extra u |}) <$> User a;
     Verb := Verb a; Namespace := Namespace a; APIGroup := APIGroup a;
     APIVersion := APIVersion a; Resource := Resource a; Subresource := Subresource a;
     Name := Name a; ResourceRequest := ResourceRequest a; Path := Path a |}.

Definition withAPIVersion (version : string) (a : Attributes) : Attributes :=
  {| User := User a;
     Verb := Verb a; Namespace := Namespace a; APIGroup := APIGroup a;
     APIVersion := version; Resource := Resource a; Subresource := Subresource a;
     Name := Name a; ResourceRequest := ResourceRequest a; Path := Path a |}.

Definition withRuleGroups (groups : list string) (r : authz.StaticAuthorizationConfig)
  : authz.StaticAuthorizationConfig :=
  {| authz.Static_User :=
       {| authz.UserConfig_Name := authz.UserConfig_Name (authz.Static_User r);
          authz.UserConfig_Groups := groups |};
     authz.Static_Verb := authz.Static_Verb r;
     authz.Static_Namespace := authz.Static_Namespace r;
     authz.Static_APIGroup := authz.Static_APIGroup r;
     authz.Static_Resource := authz.Static_Resource r;
     authz.Static_Subresource := authz.Static_Subresource r;
     authz.Static_Name := authz.Static_Name r;
     authz.Static_ResourceRequest := authz.Static_ResourceRequest r;
     authz.Static_Path := authz.Static_Path r |}.

(** The values found at the query parameter a rewrite configuration names,
    and at the header it names, in the order the request holds them; none
    when the source is not named or the request does not carry it. *)
Definition queryValues (rewrites : SubjectAccessReviewRewrites) (req : Request) : list string :=
  match ByQueryParameter rewrites with
  | Some q =>
      if decide (QueryParameter_Name q = "") then []
      else default [] (URL_Query req !! QueryParameter_Name q)
  | None => []
  end.

Definition headerValues `{MIMEHeaderKey} (rewrites : SubjectAccessReviewRewrites) (req : Request)
  : list string :=
  match ByHTTPHeader rewrites with
  | Some h =>
      if decide (HTTPHeader_Name h = "") then []
      else default [] (Header req !! CanonicalMIMEHeaderKey (HTTPHeader_Name h))
  | None => []
  end.

(** The path matcher.  The configured entries, each stripped of one leading
    slash, are split into the exact entries (no ['*']) and the glob patterns
    (with a ['*']), each kept in configuration order. *)
Definition exactEntries (inputPaths : list string) : list string :=
  filter (λ p, ContainsStar p = false) (TrimPrefixSlash <$> inputPaths).

Definition globEntries (inputPaths : list string) : list string :=
  filter (λ p, ContainsStar p = true) (TrimPrefixSlash <$> inputPaths).

(** The three things a path list can say about a request path. *)
Inductive PathVerdict : Type :=
  | PathMatched
  | PathNotMatched
  | PathMalformed (e : error).

(** Pattern number [i] is the first one whose evaluation on [pth] is not a
    plain mismatch. *)
Definition firstDecisive `{PathMatch} (globs : list string) (pth : string)
    (i : nat) (g : string) : Prop :=
  globs !! i = Some g ∧
  Forall (λ g', path_Match g' pth = (false, None)) (take i globs).

(** Exact entries are looked at first, then the patterns one after the
    other: the request path matches when it is an exact entry, or when the
    first decisive pattern matches it; the list is malformed for the path when
    it is no exact entry and the first decisive pattern reports an error; the
    path does not match when it is no exact entry and every pattern is a plain
    mismatch. *)
Definition pathVerdict `{PathMatch} (inputPaths : list string) (path : string)
    (v : PathVerdict) : Prop :=
  let pth := TrimPrefixSlash path in
  match v with
  | PathMatched =>
      pth ∈ exactEntries inputPaths ∨
      ∃ i g, firstDecisive (globEntries inputPaths) pth i g ∧ path_Match g pth = (true, None)
  | PathMalformed e =>
      (pth ∉ exactEntries inputPaths) ∧
      ∃ i g found, firstDecisive (globEntries inputPaths) pth i g ∧
                   path_Match g pth = (found, Some e)
  | PathNotMatched =>
      (pth ∉ exactEntries inputPaths) ∧
      Forall (λ g, path_Match g pth = (false, None)) (globEntries inputPaths)
  end.

(** What the evaluator answers for a verdict, given its two decisions. *)
Definition verdictResult (onMatch onNoMatch : Decision) (v : PathVerdict) : Result :=
  match v with
  | PathMatched => (onMatch, "", None)
  | PathNotMatched => (onNoMatch, "", None)
  | PathMalformed e => (DecisionNoOpinion, "Error", Some e)
  end.

(** The templated fields of a [ResourceAttributes]. *)
Definition fieldsOf (attributes : ResourceAttributes) : list string :=
  [ RA_Namespace attributes; RA_APIGroup attributes; RA_APIVersion attributes;
    RA_Resource attributes; RA_Subresource attributes; RA_Name attributes ].

(** Substitution, by the function [subst], renders every field of the
    template for every one of the values. *)
Definition fieldsRender (subst : string → string → Outcome string)
    (attributes : ResourceAttributes) (params : list string) : Prop :=
  ∀ field param, field ∈ fieldsOf attributes → param ∈ params →
    ∃ rendered, subst field param = Returned rendered.

(** [a] is the attribute set obtained by substituting [param] into every
    field of the template, for the user and the verb of [attr]. *)
Definition substitutedInto (subst : string → string → Outcome string)
    (attributes : ResourceAttributes) (attr : Attributes) (param : string) (a : Attributes)
  : Prop :=
  User a = User attr ∧
  Verb a = Verb attr ∧
  subst (RA_Namespace attributes) param = Returned (Namespace a) ∧
  subst (RA_APIGroup attributes) param = Returned (APIGroup a) ∧
  subst (RA_APIVersion attributes) param = Returned (APIVersion a) ∧
  subst (RA_Resource attributes) param = Returned (Resource a) ∧
  subst (RA_Subresource attributes) param = Returned (Subresource a) ∧
  subst (RA_Name attributes) param = Returned (Name a) ∧
  ResourceRequest a = true ∧
  Path a = "".

(** A recording stub delegate: it answers by the function [answer] and
    appends every attribute set it is asked about to the log, which is its
    state. *)
Definition recording (answer : Attributes → Result) : Authorizer (list Attributes) :=
  λ _ a log, (Returned (answer a), log ++ [a]).

(** The delegate individually allows an attribute set: decision Allow and no
    error. *)
Definition allowedBy (answer : Attributes → Result) (a : Attributes) : Prop :=
  (answer a).1.1 = DecisionAllow ∧ (answer a).2 = None.

(** Set number [i] is the first one the delegate does not allow. *)
Definition firstRefused (answer : Attributes → Result) (attrs : list Attributes)
    (i : nat) (a : Attributes) : Prop :=
  attrs !! i = Some a ∧ ¬ allowedBy answer a ∧ Forall (allowedBy answer) (take i attrs).

(** The denial reported for the attribute set [a] that the delegate
    answered [r] to: its coordinates are in the reason for a decision without
    error, and in the error for an error. *)
Definition refusal (a : Attributes) (r : Result) : Result :=
  match r.2 with
  | Some e =>
      (DecisionDeny, "AuthorizationError",
       Some (wrapError ("authorization error " +:+ coordinates a) e))
  | None => (DecisionDeny, "Forbidden " +:+ coordinates a +:+ ": " +:+ r.1.2, None)
  end.

(** The generator the configuration selects: Default without resource
    attributes, Bound with resource attributes and no rewrites, Rewriting with
    both. *)
Definition selectGenerator `{!TemplateEngine text_template} (rc : RewriteAttributesConfig)
  : AttributesGenerator :=
  match Config_ResourceAttributes rc, Rewrites rc with
  | None, _ => rewrite.DefaultAttributesGenerator_Generate
  | Some ra, None => rewrite.BoundAttributesGenerator_Generate (Some ra)
  | Some ra, Some _ => rewrite.RewritingAttributesGenerator_Generate (Some ra)
  end.

(** The strategies of the OR-combinator in priority order: the path
    strategy if a path list is configured, the static matcher if static rules
    are configured, the delegate. *)
Definition pathStrategy `{PathMatch} {St : Type} (allowPaths ignorePaths : list string)
  : list (Authorizer St) :=
  match allowPaths, ignorePaths with
  | _ :: _, _ => [pureAuthorizer (path.NewAllowPathAuthorizer allowPaths)]
  | [], _ :: _ => [pureAuthorizer (path.NewAlwaysAllowPathAuthorizer ignorePaths)]
  | [], [] => []
  end.

Definition staticStrategy {St : Type} (static : option (list authz.StaticAuthorizationConfig))
  : list (Authorizer St) :=
  match static with
  | Some rules => [pureAuthorizer (authz.Authorize rules)]
  | None => []
  end.

Definition strategies `{PathMatch} {St : Type} (allowPaths ignorePaths : list string)
    (static : option (list authz.StaticAuthorizationConfig)) (delegate : Authorizer St)
  : list (Authorizer St) :=
  pathStrategy allowPaths ignorePaths ++ staticStrategy static ++ [delegate].

(** The OR-combinator in the words of the specification, on the answers
    that the strategies give about one attribute set, in priority order: the
    first answer whose decision is not NoOpinion, as it is; when every
    strategy abstains, NoOpinion, with the reasons joined and the errors
    aggregated. *)
Definition firstOpinion (results : list Result) : Result :=
  match filter (λ r : Result, r.1.1 ≠ DecisionNoOpinion) results with
  | r :: _ => r
  | [] =>
      (DecisionNoOpinion,
       joinLines (filter (λ reason : string, reason ≠ "") ((λ r : Result, r.1.2) <$> results)),
       NewAggregate (omap (λ r : Result, r.2) results))
  end.

(** The strategies in front of the delegate, as functions of the attribute
    set they are asked about: the path strategy if a path list is configured,
    then the static matcher if static rules are configured. *)
Definition localStrategies `{PathMatch} (allowPaths ignorePaths : list string)
    (static : option (list authz.StaticAuthorizationConfig)) : list (Attributes → Result) :=
  match allowPaths, ignorePaths with
  | _ :: _, _ => [path.NewAllowPathAuthorizer allowPaths]
  | [], _ :: _ => [path.NewAlwaysAllowPathAuthorizer ignorePaths]
  | [], [] => []
  end ++
  match static with
  | Some rules => [authz.Authorize rules]
  | None => []
  end.

(** What the OR-combinator of the strategies [locals] and of a delegate that
    answers by [answer] says about the attribute set [a]; and whether the
    delegate is reached, which it is when every strategy in front of it
    abstains. *)
Definition orAnswer (locals : list (Attributes → Result)) (answer : Attributes → Result)
    (a : Attributes) : Result :=
  firstOpinion (((λ f, f a) <$> locals) ++ [answer a]).

Definition reachesDelegate (locals : list (Attributes → Result)) (a : Attributes) : bool :=
  forallb (λ f, bool_decide ((f a).1.1 = DecisionNoOpinion)) locals.

(** The attribute sets of the three generators: the request itself, reduced
    to its user, verb and path; the configured resource for the user and the
    verb of the request; one substituted set per value of the context. *)
Definition defaultSet (attr : Attributes) : Attributes :=
  {| User := User attr; Verb := Verb attr;
     Namespace := ""; APIGroup := ""; APIVersion := ""; Resource := "";
     Subresource := ""; Name := "";
     ResourceRequest := false; Path := Path attr |}.

Definition boundSet (attributes : ResourceAttributes) (attr : Attributes) : Attributes :=
  {| User := User attr; Verb := Verb attr;
     Namespace := RA_Namespace attributes; APIGroup := RA_APIGroup attributes;
     APIVersion := RA_APIVersion attributes; Resource := RA_Resource attributes;
     Subresource := RA_Subresource attributes; Name := RA_Name attributes;
     ResourceRequest := true; Path := "" |}.

(** [attrs] are the attribute sets that a request stands for under the
    rewrite configuration [rc]: the default set without resource attributes,
    the bound set with resource attributes and no rewrites, the substituted
    sets with both. *)
Definition generatedSets `{!TemplateEngine text_template} (rc : RewriteAttributesConfig)
    (ctx : Context) (attr : Attributes) (attrs : list Attributes) : Prop :=
  match Config_ResourceAttributes rc, Rewrites rc with
  | None, _ => attrs = [defaultSet attr]
  | Some attributes, None => attrs = [boundSet attributes attr]
  | Some attributes, Some _ =>
      Forall2 (substitutedInto rewrite.templateWithValue attributes attr)
        (rewrite.GetKubeRBACProxyParams ctx) attrs
  end.

End spec.

(** ** Stand-ins for the library functions, used by the examples

    The examples at the end evaluate the code on concrete requests and need
    concrete library functions.  Each stand-in computes what the Go function
    computes on the inputs the examples use. *)

Module examples.

(** [path.Match] on patterns made of literal bytes, ['?'] and ['*']; a
    pattern with a class or an escape is reported as malformed. *)
Fixpoint glob (pattern name : string) : bool :=
  match pattern with
  | EmptyString => bool_decide (name = "")
  | String c pattern' =>
      if decide (c = "*"%char) then
        (fix star (name : string) : bool :=
           glob pattern' name ||
           match name with
           | EmptyString => false
           | String d name' => if decide (d = "/"%char) then false else star name'
           end) name
      else
        match name with
        | EmptyString => false
        | String d name' =>
            if decide (c = "?"%char) then negb (bool_decide (d = "/"%char)) && glob pattern' name'
            else bool_decide (c = d) && glob pattern' name'
        end
  end.

Fixpoint hasClassOrEscape (pattern : string) : bool :=
  match pattern with
  | EmptyString => false
  | String c rest =>
      if decide (c = "["%char ∨ c = "\"%char) then true else hasClassOrEscape rest
  end.

#[export] Instance globMatch : PathMatch :=
  λ pattern name,
    if hasClassOrEscape pattern then (false, Some (errorString "syntax error in pattern"))
    else (glob pattern name, None).

(** [textproto.CanonicalMIMEHeaderKey] on keys made of letters, digits and
    ['-']: the first letter and every letter after a ['-'] in upper case, the
    others in lower case; any other key is returned as it is. *)
Definition isLower (c : ascii) : bool :=
  (97 <=? nat_of_ascii c)%nat && (nat_of_ascii c <=? 122)%nat.
Definition isUpper (c : ascii) : bool :=
  (65 <=? nat_of_ascii c)%nat && (nat_of_ascii c <=? 90)%nat.
Definition isDigit (c : ascii) : bool :=
  (48 <=? nat_of_ascii c)%nat && (nat_of_ascii c <=? 57)%nat.
Definition toUpper (c : ascii) : ascii :=
  if isLower c then ascii_of_nat (nat_of_ascii c - 32) else c.
Definition toLower (c : ascii) : ascii :=
  if isUpper c then ascii_of_nat (nat_of_ascii c + 32) else c.

Fixpoint plainKey (s : string) : bool :=
  match s with
  | EmptyString => true
  | String c rest =>
      (isLower c || isUpper c || isDigit c || bool_decide (c = "-"%char)) && plainKey rest
  end.

Fixpoint canonical (upper : bool) (s : string) : string :=
  match s with
  | EmptyString => EmptyString
  | String c rest =>
      String (if upper then toUpper c else toLower c) (canonical (bool_decide (c = "-"%char)) rest)
  end.

#[export] Instance canonicalKey : MIMEHeaderKey :=
  λ s, if plainKey s then canonical true s else s.

(** A template engine for texts whose only actions are field accesses
    [{{ .Field }}]: an action that is not closed, or that is not a field
    access, does not parse; executing the field [Value] writes the value, any
    other field is an execution error, reported after what was written before
    it. *)
Inductive node : Type :=
  | TextNode (text : string)
  | FieldNode (field : string).

Inductive mode : Type :=
  | InText (text : string)
  | InAction (body : string).

Definition textNodes (text : string) : list node :=
  if decide (text = "") then [] else [TextNode text].

Fixpoint dropSpaces (s : string) : string :=
  match s with
  | String c rest => if decide (c = " "%char) then dropSpaces rest else String c (dropSpaces rest)
  | EmptyString => s
  end.

(** The field named by the body of an action, if it is [.Field] between
    spaces. *)
Definition fieldOf (body : string) : option string :=
  match dropSpaces body with
  | String c name =>
      if decide (c = "."%char ∧ name ≠ "") then Some name else None
  | EmptyString => None
  end.

Fixpoint scan (s : string) (m : mode) : option (list node) :=
  match s with
  | EmptyString =>
      match m with
      | InText text => Some (textNodes text)
      | InAction _ => None
      end
  | String c rest =>
      match m with
      | InText text =>
          match rest with
          | String d rest' =>
              if decide (c = "{"%char ∧ d = "{"%char)
              then (textNodes text ++.) <$> scan rest' (InAction "")
              else scan rest (InText (text +:+ String c ""))
          | EmptyString => scan rest (InText (text +:+ String c ""))
          end
      | InAction body =>
          match rest with
          | String d rest' =>
              if decide (c = "}"%char ∧ d = "}"%char)
              then
                match fieldOf body with
                | Some field => (FieldNode field ::.) <$> scan rest' (InText "")
                | None => None
                end
              else scan rest (InAction (body +:+ String c ""))
          | EmptyString => scan rest (InAction (body +:+ String c ""))
          end
      end
  end.

Fixpoint run (nodes : list node) (value out : string) : string * option error :=
  match nodes with
  | [] => (out, None)
  | TextNode text :: rest => run rest value (out +:+ text)
  | FieldNode field :: rest =>
      if decide (field = "Value") then run rest value (out +:+ value)
      else (out, Some (errorString ("can't evaluate field " +:+ field)))
  end.

#[export] Instance fieldTemplates : TemplateEngine text_template := {|
  Template := list node;
  parse := λ text,
    match scan text (InText "") with
    | Some nodes => inl nodes
    | None => inr (errorString "template: valueTemplate: parse error")
    end;
  execute := λ nodes value, run nodes value ""
|}.

(** [html/template] parses as [text/template] does, and executes alike when
    neither the texts of the template nor the value hold a character that has
    a meaning in HTML; the stand-in reports an execution error otherwise. *)
Definition htmlNeutral (c : ascii) : bool :=
  isLower c || isUpper c || isDigit c ||
  bool_decide (c = " "%char ∨ c = "."%char ∨ c = "-"%char ∨ c = "_"%char ∨ c = "/"%char).

Fixpoint neutral (s : string) : bool :=
  match s with
  | EmptyString => true
  | String c rest => htmlNeutral c && neutral rest
  end.

Definition neutralNode (n : node) : bool :=
  match n with
  | TextNode text => neutral text
  | FieldNode _ => true
  end.

#[export] Instance htmlFieldTemplates : TemplateEngine html_template := {|
  Template := list node;
  parse := λ text,
    match scan text (InText "") with
    | Some nodes => inl nodes
    | None => inr (errorString "template: valueTemplate: parse error")
    end;
  execute := λ nodes value,
    if forallb neutralNode nodes && neutral value then run nodes value ""
    else ("", Some (errorString "html/template: valueTemplate: not rendered"))
|}.

(** The inputs of the examples: the user bob asking to [get] the path
    [/metrics]; a template for the pods of the namespace given by the value;
    the contexts that carry the values [ns1] and [ns2], and none; the
    attribute set generated for a namespace; a delegate answer that allows one
    namespace only, one that allows everything, one that denies everything and
    one that fails. *)
Definition bob : UserInfo :=
  {| UserName := "bob"; UID := ""; Groups := []; Extra := ∅ |}.

Definition getMetrics : Attributes :=
  {| User := Some bob; Verb := "get"; Namespace := ""; APIGroup := ""; APIVersion := "";
     Resource := ""; Subresource := ""; Name := ""; ResourceRequest := false;
     Path := "/metrics" |}.

Definition podsOfNamespace : ResourceAttributes :=
  {| RA_Namespace := "{{ .Value }}"; RA_APIGroup := ""; RA_APIVersion := "";
     RA_Resource := "pods"; RA_Subresource := ""; RA_Name := "" |}.

Definition twoNamespaces : Context := {| ctx_rewriterParams := Some ["ns1"; "ns2"] |}.

Definition noParams : Context := {| ctx_rewriterParams := None |}.

Definition podsIn (namespace : string) : Attributes :=
  {| User := Some bob; Verb := "get"; Namespace := namespace; APIGroup := "";
     APIVersion := ""; Resource := "pods"; Subresource := ""; Name := "";
     ResourceRequest := true; Path := "" |}.

Definition allowsOnly (namespace : string) : Attributes → Result :=
  λ a, if decide (Namespace a = namespace) then (DecisionAllow, "", None)
       else (DecisionDeny, "not permitted", None).

Definition allowsAll : Attributes → Result := λ _, (DecisionAllow, "", None).

Definition deniesAll : Attributes → Result := λ _, (DecisionDeny, "not permitted", None).

Definition fails : Attributes → Result :=
  λ _, (DecisionNoOpinion, "", Some (errorString "context deadline exceeded")).

(** Configurations for the composition roots: no resource attributes and a
    static rule for the pods; a fixed resource for every request. *)
Definition podsRule : authz.StaticAuthorizationConfig :=
  {| authz.Static_User := {| authz.UserConfig_Name := ""; authz.UserConfig_Groups := [] |};
     authz.Static_Verb := "get"; authz.Static_Namespace := ""; authz.Static_APIGroup := "";
     authz.Static_Resource := "pods"; authz.Static_Subresource := ""; authz.Static_Name := "";
     authz.Static_ResourceRequest := true; authz.Static_Path := "" |}.

Definition noRewrite : RewriteAttributesConfig :=
  {| Rewrites := None; Config_ResourceAttributes := None; ResourceAttributesFile := "" |}.

Definition pathsAndStatic : authorization.AuthzConfig :=
  {| authorization.Embedded_RewriteAttributesConfig := Some noRewrite;
     authorization.Static := Some [podsRule] |}.

Definition boundToSecrets : RewriteAttributesConfig :=
  {| Rewrites := None;
     Config_ResourceAttributes :=
       Some {| RA_Namespace := "kube-system"; RA_APIGroup := ""; RA_APIVersion := "v1";
               RA_Resource := "secrets"; RA_Subresource := ""; RA_Name := "" |};
     ResourceAttributesFile := "" |}.

Definition secretsOnly : authorization.AuthzConfig :=
  {| authorization.Embedded_RewriteAttributesConfig := Some boundToSecrets;
     authorization.Static := None |}.

Definition secrets : Attributes :=
  {| User := Some bob; Verb := "get"; Namespace := "kube-system"; APIGroup := "";
     APIVersion := "v1"; Resource := "secrets"; Subresource := ""; Name := "";
     ResourceRequest := true; Path := "" |}.

(** The request [GET /metrics?namespace=ns1&namespace=ns2] and the
    configuration that rewrites by the query parameter [namespace]. *)
Definition metricsOfTwoNamespaces : Request :=
  {| Method := "GET"; URL_Path := "/metrics";
     URL_Query := {[ "namespace" := ["ns1"; "ns2"] ]};
     Header := ∅ |}.

Definition byNamespaceQuery : RewriteAttributesConfig :=
  {| Rewrites := Some {| ByQueryParameter := Some {| QueryParameter_Name := "namespace" |};
                         ByHTTPHeader := None |};
     Config_ResourceAttributes := Some podsOfNamespace;
     ResourceAttributesFile := "" |}.

Definition recordingDelegate (answer : Attributes → Result)
  : authorization.AuthorizationInfo (list Attributes) :=
  authorization.mkAuthorizationInfo (spec.recording answer).

(** A configuration with a static rule and no rewrite part; a template
    whose namespace field does not parse. *)
Definition staticOnly : authorization.AuthzConfig :=
  {| authorization.Embedded_RewriteAttributesConfig := None;
     authorization.Static := Some [podsRule] |}.

Definition unclosedNamespace : ResourceAttributes :=
  {| RA_Namespace := "{{ .Value"; RA_APIGroup := ""; RA_APIVersion := "";
     RA_Resource := "pods"; RA_Subresource := ""; RA_Name := "" |}.

End examples.

(** ** Further notions used by the properties *)

Module more.

(** A final verdict: Allow with empty reason and no error, or Deny. *)
Definition finalVerdict (r : Result) : Prop :=
  r = (DecisionAllow, "", None) ∨ r.1.1 = DecisionDeny.

(** The verbs of the API vocabulary, and the wildcard. *)
Definition apiVerbs : list string := ["get"; "create"; "update"; "patch"; "delete"; "*"].

(** The attributes that the request of a user stands for before any
    rewriting: the user, the verb of the method and the path. *)
Definition requestAttributes (u : option UserInfo) (r : Request) : Attributes :=
  {| User := u; Verb := authz_config.apiVerbOf (Method r);
     Namespace := ""; APIGroup := ""; APIVersion := ""; Resource := "";
     Subresource := ""; Name := "";
     ResourceRequest := false; Path := URL_Path r |}.

(** The attributes bound to a fixed resource, for a user and a verb. *)
Definition boundAttributes (attributes : ResourceAttributes) (u : option UserInfo)
    (verb : string) : Attributes :=
  {| User := u; Verb := verb;
     Namespace := RA_Namespace attributes; APIGroup := RA_APIGroup attributes;
     APIVersion := RA_APIVersion attributes; Resource := RA_Resource attributes;
     Subresource := RA_Subresource attributes; Name := RA_Name attributes;
     ResourceRequest := true; Path := "" |}.

(** What the authorization filter answers for the attribute set [a] that
    the authorizer answered [r] to: 500 for an error, 403 otherwise. *)
Definition refusalResponse (u : UserInfo) (a : Attributes) (r : Result) : filters.Response :=
  if r.2 is Some _
  then filters.http_Error ("Authorization error " +:+ filters.coordinatesOf u a) 500
  else filters.http_Error ("Forbidden " +:+ filters.coordinatesOf u a) 403.

(** The request with the audiences put into its context when there are any,
    and the request with a user put into its context. *)
Definition withAudiences (audiences : list string) (req : filters.ServedRequest)
  : filters.ServedRequest :=
  match audiences with
  | [] => req
  | _ :: _ =>
      {| filters.request := filters.request req;
         filters.context :=
           {| filters.ctx_user := filters.ctx_user (filters.context req);
              filters.ctx_audiences := Some audiences;
              filters.ctx_values := filters.ctx_values (filters.context req) |} |}
  end.

Definition withUser (u : option UserInfo) (req : filters.ServedRequest)
  : filters.ServedRequest :=
  {| filters.request := filters.request req;
     filters.context :=
       {| filters.ctx_user := u;
          filters.ctx_audiences := filters.ctx_audiences (filters.context req);
          filters.ctx_values := filters.ctx_values (filters.context req) |} |}.

End more.

(** ** Further inputs of the examples *)

Module more_examples.

(** The request of bob for another path. *)
Definition getOther : Attributes :=
  {| User := Some examples.bob; Verb := "get"; Namespace := ""; APIGroup := "";
     APIVersion := ""; Resource := ""; Subresource := ""; Name := "";
     ResourceRequest := false; Path := "/other" |}.

(** The request for the metrics path written without its leading slash. *)
Definition getMetricsNoSlash : Attributes :=
  {| User := Some examples.bob; Verb := "get"; Namespace := ""; APIGroup := "";
     APIVersion := ""; Resource := ""; Subresource := ""; Name := "";
     ResourceRequest := false; Path := "metrics" |}.

(** The authorizer that [SetupAuthorizer] builds for the configuration bound
    to the secrets, an ignore-list for the metrics path and a delegate that
    denies everything. *)
Definition secretsRoot : Authorizer (list Attributes) :=
  rewrite.NewDelegateAuthorizer
    (union_New
       [ pureAuthorizer (path.NewAlwaysAllowPathAuthorizer (H:=examples.globMatch) ["/metrics"]);
         spec.recording examples.deniesAll ])
    (rewrite.BoundAttributesGenerator_Generate
       (Config_ResourceAttributes examples.boundToSecrets)).

End more_examples.

(** * Properties *)

(** ** The static matcher *)

Lemma isAllowed_fieldMatches (ruleField attrField : string) :
  authz.isAllowed ruleField attrField = true ↔ spec.fieldMatches ruleField attrField.
Proof.
  unfold authz.isAllowed, spec.fieldMatches.
  case_decide as Hempty.
  - split; [intros _ Hne; by destruct Hne | done].
  - rewrite bool_decide_eq_true. split; [by intros -> | by intros Heq; apply Heq].
Qed.

Lemma Matches_ruleMatches (r : authz.StaticAuthorizationConfig) (a : Attributes) :
  authz.Matches r a = true ↔ spec.ruleMatches r a.
Proof.
  unfold authz.Matches, spec.ruleMatches, spec.userNameOf.
  rewrite <- !isAllowed_fieldMatches.
  set (userName := match User a with Some u => UserName u | None => "" end).
  assert (from_option UserName "" (User a) = userName) as -> by (by destruct (User a)).
  match goal with
  | |- (if ?b then true else false) = true ↔ _ =>
      replace (if b then true else false) with b by (by destruct b)
  end.
  rewrite !andb_true_iff, bool_decide_eq_true. tauto.
Qed.

Lemma static_Authorize_cases (rules : list authz.StaticAuthorizationConfig) (a : Attributes) :
  (authz.Authorize rules a = (DecisionAllow, "found corresponding static auth config", None)
   ∧ Exists (λ r, spec.ruleMatches r a) rules)
  ∨ (authz.Authorize rules a = (DecisionNoOpinion, "", None)
     ∧ Forall (λ r, ¬ spec.ruleMatches r a) rules).
Proof.
  induction rules as [|r rules IH]; simpl.
  - right. split; [done | constructor].
  - destruct (authz.Matches r a) eqn:Hm.
    + left. split; [done|]. apply Exists_cons_hd. by apply Matches_ruleMatches.
    + assert (¬ spec.ruleMatches r a) as Hno.
      { rewrite <- Matches_ruleMatches. by rewrite Hm. }
      destruct IH as [[-> Hex]|[-> Hall]].
      * left. split; [done|]. by apply Exists_cons_tl.
      * right. split; [done|]. by constructor.
Qed.

Lemma static_Authorize_no_error
    (rules : list authz.StaticAuthorizationConfig) (a : Attributes) :
  (authz.Authorize rules a).2 = None.
Proof. by destruct (static_Authorize_cases rules a) as [[-> _]|[-> _]]. Qed.

(** C5.  The static matcher returns Allow exactly when some rule of the list
    matches the attributes (every non-empty string field of the rule equal to
    the field of the attributes, [resourceRequest] equal), NoOpinion exactly
    when none does; it never returns Deny and never an error. *)
Theorem static_matcher_allow_iff_some_rule_matches
    (rules : list authz.StaticAuthorizationConfig) (a : Attributes) :
  (authz.Authorize rules a = (DecisionAllow, "found corresponding static auth config", None)
     ↔ ∃ r, r ∈ rules ∧ spec.ruleMatches r a) ∧
  (authz.Authorize rules a = (DecisionNoOpinion, "", None)
     ↔ ¬ ∃ r, r ∈ rules ∧ spec.ruleMatches r a) ∧
  (authz.Authorize rules a).1.1 ≠ DecisionDeny ∧
  (authz.Authorize rules a).2 = None.
Proof.
  rewrite <- Exists_exists.
  destruct (static_Authorize_cases rules a) as [[-> Hex]|[-> Hall]].
  - split_and!; try done; try (split; [done | intros Hno; by destruct Hno]).
  - assert (¬ Exists (λ r, spec.ruleMatches r a) rules) as Hno.
    { rewrite <- Forall_Exists_neg. exact Hall. }
    split_and!; try done; try (split; [done | intros Hex; by destruct Hno]).
Qed.

Lemma firstInvalid_true_iff (rules : list authz.StaticAuthorizationConfig) :
  authz.firstInvalid rules = true ↔ Exists (λ r, ¬ spec.ruleWellFormed r) rules.
Proof.
  unfold spec.ruleWellFormed.
  induction rules as [|r rules IH]; simpl.
  - split; [discriminate | by intros ?%Exists_nil].
  - rewrite Exists_cons, <- IH. case_bool_decide; simpl; tauto.
Qed.

(** C9.  Constructing the static authorizer fails exactly when some rule
    violates [resourceRequest == (path == "")]; otherwise it succeeds and
    holds the rules unchanged; and a request evaluated against the rules
    never yields an error. *)
Theorem NewStaticAuthorizer_fails_iff_some_rule_ill_formed
    (rules : list authz.StaticAuthorizationConfig) :
  ((∃ err, authz.NewStaticAuthorizer rules = inr err)
     ↔ ∃ r, r ∈ rules ∧ ¬ spec.ruleWellFormed r) ∧
  (authz.NewStaticAuthorizer rules = inl rules
     ↔ ∀ r, r ∈ rules → spec.ruleWellFormed r) ∧
  (∀ a, (authz.Authorize rules a).2 = None).
Proof.
  rewrite <- Exists_exists, <- firstInvalid_true_iff.
  assert ((∀ r, r ∈ rules → spec.ruleWellFormed r) ↔ authz.firstInvalid rules = false) as ->.
  { rewrite <- not_true_iff_false, firstInvalid_true_iff, <- Forall_Exists_neg, Forall_forall.
    unfold spec.ruleWellFormed.
    split; intros Hall r Hr; specialize (Hall r Hr); [by intros Hbad|].
    destruct (decide (authz.Static_ResourceRequest r
                      = bool_decide (authz.Static_Path r = ""))); [done | by destruct Hall]. }
  unfold authz.NewStaticAuthorizer.
  destruct (authz.firstInvalid rules); split_and!.
  - split; [done | eauto].
  - split; discriminate.
  - intros a. apply static_Authorize_no_error.
  - split; [by intros [? ?] | discriminate].
  - done.
  - intros a. apply static_Authorize_no_error.
Qed.

(** C10.  [Matches] does not look at the group list of the user, at the API
    version of the attributes, or at the group list of the rule: changing any
    of them leaves its result, and so the decision of the static authorizer,
    unchanged. *)
Theorem Matches_ignores_groups_and_api_version
    (r : authz.StaticAuthorizationConfig) (a : Attributes) :
  (∀ groups, authz.Matches r (spec.withGroups groups a) = authz.Matches r a) ∧
  (∀ version, authz.Matches r (spec.withAPIVersion version a) = authz.Matches r a) ∧
  (∀ groups, authz.Matches (spec.withRuleGroups groups r) a = authz.Matches r a) ∧
  (∀ rules groups version,
     authz.Authorize rules (spec.withGroups groups (spec.withAPIVersion version a))
     = authz.Authorize rules a).
Proof.
  assert (∀ r a groups, authz.Matches r (spec.withGroups groups a) = authz.Matches r a) as Hg.
  { intros r' a' groups. unfold authz.Matches, spec.withGroups. simpl. by destruct (User a'). }
  split_and!; [apply Hg | intros; reflexivity | intros; reflexivity |].
  intros rules groups version.
  induction rules as [|r' rules IH]; simpl; [done|].
  by rewrite IH, Hg.
Qed.

(** ** The rewrite parameter extractor *)

Section extractor.
Context `{MIMEHeaderKey}.

(** The two copies of [requestToParams] are the same function. *)
Lemma requestToParams_copies_agree (config : option RewriteAttributesConfig) (req : Request) :
  rewrite_config.requestToParams config req = rewrite.requestToParams config req.
Proof. reflexivity. Qed.

Lemma requestToParams_sources (rewrites : SubjectAccessReviewRewrites)
    (config : RewriteAttributesConfig) (req : Request) :
  Rewrites config = Some rewrites →
  rewrite.requestToParams (Some config) req
  = spec.queryValues rewrites req ++ spec.headerValues rewrites req.
Proof.
  intros Hrw. unfold rewrite.requestToParams, spec.queryValues, spec.headerValues.
  rewrite Hrw.
  destruct (ByQueryParameter rewrites) as [q|], (ByHTTPHeader rewrites) as [h|]; simpl;
    repeat case_decide; try done;
    repeat match goal with
           | |- context [?m !! ?k] => destruct (m !! k); simpl
           end;
    by rewrite ?app_nil_r.
Qed.

(** C2, as the code has it.  [requestToParams] returns the values of the
    configured query parameter followed by the values of the configured
    header: with no configuration or no rewrites it returns nothing; when only
    a query parameter is named it returns that parameter's values and nothing
    else, in the order of the request; when only a header is named it returns
    that header's values and nothing else; when both are named the two
    sequences are concatenated, query values first. *)
Theorem requestToParams_query_values_then_header_values
    (config : option RewriteAttributesConfig) (req : Request) :
  rewrite.requestToParams config req
  = match config ≫= Rewrites with
    | None => []
    | Some rewrites => spec.queryValues rewrites req ++ spec.headerValues rewrites req
    end
  ∧ rewrite_config.requestToParams config req = rewrite.requestToParams config req
  ∧ (∀ rewrites, config ≫= Rewrites = Some rewrites →
       (ByHTTPHeader rewrites = None →
          rewrite.requestToParams config req = spec.queryValues rewrites req) ∧
       (ByQueryParameter rewrites = None →
          rewrite.requestToParams config req = spec.headerValues rewrites req)).
Proof.
  assert (rewrite.requestToParams config req
          = match config ≫= Rewrites with
            | None => []
            | Some rewrites => spec.queryValues rewrites req ++ spec.headerValues rewrites req
            end) as Heq.
  { destruct config as [c|]; [|reflexivity].
    change (Some c ≫= Rewrites) with (Rewrites c).
    destruct (Rewrites c) as [rewrites|] eqn:Hrw.
    - by apply requestToParams_sources.
    - unfold rewrite.requestToParams. by rewrite Hrw. }
  split_and!; [exact Heq | reflexivity |].
  intros rewrites Hrw. rewrite Heq, Hrw.
  unfold spec.queryValues, spec.headerValues.
  split; intros ->; [by rewrite app_nil_r | done].
Qed.

End extractor.

(** C2, as stated, fails: a configuration that names both a query parameter
    and a header, on a request that carries both, yields the two sequences
    combined into one, which is neither source's sequence alone. *)
Lemma requestToParams_combines_both_sources :
  let config :=
    {| Rewrites := Some {| ByQueryParameter := Some {| QueryParameter_Name := "namespace" |};
                           ByHTTPHeader := Some {| HTTPHeader_Name := "X-Namespace" |} |};
       Config_ResourceAttributes := None;
       ResourceAttributesFile := "" |} in
  let req :=
    {| Method := "GET"; URL_Path := "/metrics";
       URL_Query := {[ "namespace" := ["ns1"] ]};
       Header := {[ "X-Namespace" := ["ns2"] ]} |} in
  let result := @rewrite.requestToParams examples.canonicalKey (Some config) req in
  result = ["ns1"; "ns2"] ∧
  @rewrite_config.requestToParams examples.canonicalKey (Some config) req = result ∧
  URL_Query req !! "namespace" = Some ["ns1"] ∧
  Header req !! "X-Namespace" = Some ["ns2"] ∧
  result ≠ ["ns1"] ∧ result ≠ ["ns2"].
Proof. vm_compute. by split_and!. Qed.

(** ** The path matcher *)

Section path_matcher.
Context `{PathMatch}.

(** One iteration of the loop of [newPathAuthorizer]: an entry with a
    ['*'] goes to the patterns, any other entry, the empty one included, to
    the set. *)
Lemma partition_cons (p : string) (rest : list string) (paths : gset string)
    (patterns : list string) :
  path.partition (p :: rest) paths patterns
  = if ContainsStar (TrimPrefixSlash p)
    then path.partition rest paths (patterns ++ [TrimPrefixSlash p])
    else path.partition rest ({[TrimPrefixSlash p]} ∪ paths) patterns.
Proof.
  simpl. case_decide as Hlen; [|done].
  by destruct (TrimPrefixSlash p).
Qed.

Lemma partition_entries (inputPaths : list string) (paths : gset string)
    (patterns : list string) :
  (∀ p, p ∈ (path.partition inputPaths paths patterns).1
        ↔ p ∈ spec.exactEntries inputPaths ∨ p ∈ paths) ∧
  (path.partition inputPaths paths patterns).2 = patterns ++ spec.globEntries inputPaths.
Proof.
  unfold spec.exactEntries, spec.globEntries.
  revert paths patterns.
  induction inputPaths as [|p rest IH]; intros paths patterns.
  - split; [intros p; set_solver | by rewrite app_nil_r].
  - rewrite partition_cons, fmap_cons, !filter_cons.
    destruct (ContainsStar (TrimPrefixSlash p)) eqn:Hstar.
    + destruct (IH paths (patterns ++ [TrimPrefixSlash p])) as [IHset ->].
      rewrite decide_False, decide_True, <- app_assoc by done.
      split; [exact IHset | done].
    + destruct (IH ({[TrimPrefixSlash p]} ∪ paths) patterns) as [IHset ->].
      rewrite decide_True, decide_False by done.
      split; [|done]. intros q. rewrite IHset. set_solver.
Qed.

Lemma matchPatterns_skip (a : path.pathAuthorizer) (globs : list string) (pth : string)
    (i : nat) :
  Forall (λ g, path_Match g pth = (false, None)) (take i globs) →
  path.matchPatterns a globs pth = path.matchPatterns a (drop i globs) pth.
Proof.
  revert globs. induction i as [|i IH]; intros globs Hskip; [done|].
  destruct globs as [|g globs]; [done|].
  simpl in Hskip. apply Forall_cons in Hskip as [Hg Hskip].
  simpl. rewrite Hg. by apply IH.
Qed.

Lemma matchPatterns_verdict (a : path.pathAuthorizer) (globs : list string) (pth : string) :
  (Forall (λ g, path_Match g pth = (false, None)) globs →
   path.matchPatterns a globs pth = (path.noMatchDecision a, "", None)) ∧
  (∀ i g, spec.firstDecisive globs pth i g →
     (path_Match g pth = (true, None) →
      path.matchPatterns a globs pth = (path.matchDecision a, "", None)) ∧
     (∀ found e, path_Match g pth = (found, Some e) →
      path.matchPatterns a globs pth = (DecisionNoOpinion, "Error", Some e))).
Proof.
  split.
  - intros Hall. rewrite (matchPatterns_skip a globs pth (length globs)).
    + by rewrite drop_all.
    + by rewrite firstn_all.
  - intros i g [Hi Hskip].
    rewrite (matchPatterns_skip a globs pth i Hskip).
    rewrite (drop_S globs g i Hi). simpl.
    split; [intros -> | intros found e ->]; done.
Qed.

(** Every pattern list has a verdict on every path. *)
Lemma globs_decided (globs : list string) (pth : string) :
  Forall (λ g, path_Match g pth = (false, None)) globs ∨
  ∃ i g, spec.firstDecisive globs pth i g ∧ path_Match g pth ≠ (false, None).
Proof.
  induction globs as [|g globs IH]; [left; constructor|].
  destruct (path_Match g pth) as [found err] eqn:Hg.
  destruct err as [e|]; [|destruct found].
  - right. exists 0, g. split; [split; [done | constructor] | by rewrite Hg].
  - right. exists 0, g. split; [split; [done | constructor] | by rewrite Hg].
  - destruct IH as [Hall | (i & g' & [Hi Hskip] & Hne)].
    + left. by constructor.
    + right. exists (S i), g'. split; [split; [done | by constructor] | done].
Qed.

Lemma pathVerdict_total (inputPaths : list string) (path : string) :
  ∃ v, spec.pathVerdict inputPaths path v.
Proof.
  unfold spec.pathVerdict.
  destruct (decide (TrimPrefixSlash path ∈ spec.exactEntries inputPaths)) as [Hin|Hnot].
  { exists spec.PathMatched. by left. }
  destruct (globs_decided (spec.globEntries inputPaths) (TrimPrefixSlash path))
    as [Hall | (i & g & Hfirst & Hne)].
  { by exists spec.PathNotMatched. }
  destruct (path_Match g (TrimPrefixSlash path)) as [found [e|]] eqn:Hg.
  - exists (spec.PathMalformed e). eauto 10.
  - destruct found; [|done]. exists spec.PathMatched. right. eauto.
Qed.

Lemma pathAuthorizer_Authorize_verdict (onMatch onNoMatch : Decision)
    (inputPaths : list string) (attr : Attributes) (v : spec.PathVerdict) :
  spec.pathVerdict inputPaths (Path attr) v →
  path.Authorize (path.newPathAuthorizer onMatch onNoMatch inputPaths) attr
  = spec.verdictResult onMatch onNoMatch v.
Proof.
  unfold path.Authorize, path.newPathAuthorizer, spec.pathVerdict.
  destruct (partition_entries inputPaths ∅ []) as [Hset Hlist].
  destruct (path.partition inputPaths ∅ []) as [paths patterns]. simpl in *. subst patterns.
  set (a := {| path.matchDecision := onMatch; path.noMatchDecision := onNoMatch;
               path.paths := paths; path.pathPatterns := spec.globEntries inputPaths |}).
  assert (∀ p, p ∈ paths ↔ p ∈ spec.exactEntries inputPaths) as Hexact.
  { intros p. rewrite Hset. set_solver. }
  destruct (matchPatterns_verdict a (spec.globEntries inputPaths) (TrimPrefixSlash (Path attr)))
    as [Hnone Hfirst].
  intros Hv. case_bool_decide as Hin; rewrite Hexact in Hin.
  - destruct v as [| |e]; [done | by destruct Hv | by destruct Hv].
  - destruct v as [| |e].
    + destruct Hv as [Hv | (i & g & Hdec & Hg)]; [done|].
      by apply (Hfirst i g Hdec).
    + destruct Hv as [_ Hall]. by apply Hnone.
    + destruct Hv as [_ (i & g & found & Hdec & Hg)].
      by apply (Hfirst i g Hdec) with found.
Qed.

(** C6, as the code has it.  Entries and request path are each stripped of
    one leading slash; the exact entries are looked up first, then the glob
    patterns in order, the first decisive one settling the answer.  Every
    request path has a verdict.  Under the ignore-list constructor a match
    yields Allow and no match NoOpinion.  Under the allow-list constructor
    with a non-empty list a match yields NoOpinion and no match Deny; with an
    empty list it answers NoOpinion to everything.  When the first decisive
    pattern is malformed both answer NoOpinion together with the error. *)
Theorem path_authorizer_exact_then_globs (inputPaths : list string) (attr : Attributes) :
  (∃ v, spec.pathVerdict inputPaths (Path attr) v) ∧
  (∀ v, spec.pathVerdict inputPaths (Path attr) v →
     path.NewAlwaysAllowPathAuthorizer inputPaths attr
     = spec.verdictResult DecisionAllow DecisionNoOpinion v ∧
     (inputPaths ≠ [] →
      path.NewAllowPathAuthorizer inputPaths attr
      = spec.verdictResult DecisionNoOpinion DecisionDeny v)) ∧
  path.NewAllowPathAuthorizer [] attr = (DecisionNoOpinion, "", None).
Proof.
  split_and!; [apply pathVerdict_total | | done].
  intros v Hv. split.
  - by apply pathAuthorizer_Authorize_verdict.
  - intros Hne. unfold path.NewAllowPathAuthorizer.
    destruct inputPaths as [|p rest]; [done|]. simpl.
    by apply pathAuthorizer_Authorize_verdict.
Qed.

End path_matcher.

(** ** Template substitution *)

Section substitution.
Context `{!TemplateEngine text_template} `{!TemplateEngine html_template}.

(** What parsing gives decides what the copies of [templateWithValue] do:
    on a parsed template, the output of the execution, or the empty string
    when the execution reports an error; on a text that does not parse, a
    panic. *)
Lemma Parse_parsed (pkg : TemplatePackage) `{!TemplateEngine pkg} (text : string) :
  (Parse pkg text).2 = None ↔ ∃ t, parse pkg text = inl t.
Proof.
  unfold Parse. destruct (parse pkg text) as [t|e]; simpl.
  - split; [eauto | done].
  - split; [done | by intros [? ?]].
Qed.

Lemma templateWithValue_parsed (templateString value : string) (t : Template text_template) :
  parse text_template templateString = inl t →
  rewrite.templateWithValue templateString value
  = Returned (if (execute text_template t value).2 is Some _ then ""
              else (execute text_template t value).1) ∧
  rewrite_config.templateWithValue templateString value
  = rewrite.templateWithValue templateString value.
Proof.
  intros Hparse.
  unfold rewrite.templateWithValue, rewrite_config.templateWithValue, Parse.
  rewrite Hparse. simpl. by destruct (execute text_template t value) as [out [e|]].
Qed.

Lemma templateWithValue_not_parsed (templateString value : string) (e : error) :
  parse text_template templateString = inr e →
  rewrite.templateWithValue templateString value = Panicked nilDereference ∧
  rewrite_config.templateWithValue templateString value = Panicked (panicError e).
Proof.
  intros Hparse.
  unfold rewrite.templateWithValue, rewrite_config.templateWithValue, Parse.
  by rewrite Hparse.
Qed.

Lemma authz_templateWithValue_parsed (templateString value : string)
    (t : Template html_template) :
  parse html_template templateString = inl t →
  authz.templateWithValue templateString value
  = Returned (if (execute html_template t value).2 is Some _ then ""
              else (execute html_template t value).1).
Proof.
  intros Hparse. unfold authz.templateWithValue, Parse.
  rewrite Hparse. simpl. by destruct (execute html_template t value) as [out [e|]].
Qed.


(** *** The rewriting generator *)

(** When every field renders for every value, there is a substituted set
    for every value. *)
Lemma substituted_exists (subst : string → string → Outcome string)
    (attributes : ResourceAttributes) (attr : Attributes) (params : list string) :
  spec.fieldsRender subst attributes params →
  ∃ attrs, Forall2 (spec.substitutedInto subst attributes attr) params attrs.
Proof.
  induction params as [|param params IH]; intros Hrender; [by exists []|].
  destruct IH as [attrs Hattrs].
  { intros field p Hfield Hp. apply Hrender; [done | by right]. }
  assert (∀ field, field ∈ spec.fieldsOf attributes →
                   ∃ rendered, subst field param = Returned rendered) as Hfields.
  { intros field Hfield. apply Hrender; [done | by left]. }
  destruct (Hfields (RA_Namespace attributes)) as [namespace Hnamespace]; [set_solver|].
  destruct (Hfields (RA_APIGroup attributes)) as [apiGroup HapiGroup]; [set_solver|].
  destruct (Hfields (RA_APIVersion attributes)) as [apiVersion HapiVersion]; [set_solver|].
  destruct (Hfields (RA_Resource attributes)) as [resource Hresource]; [set_solver|].
  destruct (Hfields (RA_Subresource attributes)) as [subresource Hsubresource]; [set_solver|].
  destruct (Hfields (RA_Name attributes)) as [name Hname]; [set_solver|].
  exists ({| User := User attr; Verb := Verb attr; Namespace := namespace;
             APIGroup := apiGroup; APIVersion := apiVersion; Resource := resource;
             Subresource := subresource; Name := name; ResourceRequest := true;
             Path := "" |} :: attrs).
  constructor; [by split_and! | done].
Qed.

(** The record built for one value: it is returned exactly when every
    field renders, and is then the substituted set. *)
Ltac record_returned_iff a :=
  split;
  [ let Hreturned := fresh "Hreturned" in
    intros Hreturned;
    repeat match type of Hreturned with
           | Outcome_bind ?o _ = _ =>
               destruct o eqn:?; simpl in Hreturned; [|discriminate Hreturned]
           end;
    injection Hreturned as <-; by split_and!
  | intros (? & ? & -> & -> & -> & -> & -> & -> & ? & ?);
    simpl; destruct a; simpl in *; by subst ].

Lemma rewritten_returns_iff (attributes : ResourceAttributes) (attr : Attributes)
    (param : string) (a : Attributes) :
  rewrite.rewritten attributes attr param = Returned a
  ↔ spec.substitutedInto rewrite.templateWithValue attributes attr param a.
Proof. unfold rewrite.rewritten, spec.substitutedInto. record_returned_iff a. Qed.

Lemma config_rewritten_returns_iff (attributes : ResourceAttributes) (attr : Attributes)
    (param : string) (a : Attributes) :
  rewrite_config.rewritten attributes (User attr) (Verb attr) param = Returned a
  ↔ spec.substitutedInto rewrite_config.templateWithValue attributes attr param a.
Proof. unfold rewrite_config.rewritten, spec.substitutedInto. record_returned_iff a. Qed.

(** The loop over the values: it returns exactly when every record is
    returned, and then appends the records in the order of the values. *)
Lemma rewriteEach_returns_iff (attributes : ResourceAttributes) (attr : Attributes)
    (params : list string) (attrs result : list Attributes) :
  rewrite.rewriteEach attributes attr params attrs = Returned result
  ↔ ∃ new, result = attrs ++ new ∧
           Forall2 (spec.substitutedInto rewrite.templateWithValue attributes attr) params new.
Proof.
  revert attrs result. induction params as [|param params IH]; intros attrs result; simpl.
  - split.
    + intros [= <-]. exists []. by rewrite app_nil_r.
    + intros (new & -> & ->%Forall2_nil_inv_l). by rewrite app_nil_r.
  - split.
    + intros Hreturned.
      destruct (rewrite.rewritten attributes attr param) as [a|] eqn:Ha; [|done].
      apply IH in Hreturned as (new & -> & Hnew).
      exists (a :: new). rewrite <- app_assoc. split; [done|].
      constructor; [by apply rewritten_returns_iff | done].
    + intros (new & -> & (a & new' & Ha & Hnew' & ->)%Forall2_cons_inv_l).
      apply rewritten_returns_iff in Ha. rewrite Ha. simpl.
      apply IH. exists new'. by rewrite <- app_assoc.
Qed.

Lemma config_rewriteEach_returns_iff (attributes : ResourceAttributes) (attr : Attributes)
    (params : list string) (attrs result : list Attributes) :
  rewrite_config.rewriteEach attributes (User attr) (Verb attr) params attrs = Returned result
  ↔ ∃ new, result = attrs ++ new ∧
           Forall2 (spec.substitutedInto rewrite_config.templateWithValue attributes attr)
             params new.
Proof.
  revert attrs result. induction params as [|param params IH]; intros attrs result; simpl.
  - split.
    + intros [= <-]. exists []. by rewrite app_nil_r.
    + intros (new & -> & ->%Forall2_nil_inv_l). by rewrite app_nil_r.
  - split.
    + intros Hreturned.
      destruct (rewrite_config.rewritten attributes (User attr) (Verb attr) param)
        as [a|] eqn:Ha; [|done].
      apply IH in Hreturned as (new & -> & Hnew).
      exists (a :: new). rewrite <- app_assoc. split; [done|].
      constructor; [by apply config_rewritten_returns_iff | done].
    + intros (new & -> & (a & new' & Ha & Hnew' & ->)%Forall2_cons_inv_l).
      apply config_rewritten_returns_iff in Ha. rewrite Ha. simpl.
      apply IH. exists new'. by rewrite <- app_assoc.
Qed.

Lemma Generate_returns_iff (attributes : ResourceAttributes) (ctx : Context)
    (attr : Attributes) (attrs : list Attributes) :
  rewrite.RewritingAttributesGenerator_Generate (Some attributes) ctx attr = Returned attrs
  ↔ Forall2 (spec.substitutedInto rewrite.templateWithValue attributes attr)
      (rewrite.GetKubeRBACProxyParams ctx) attrs.
Proof.
  unfold rewrite.RewritingAttributesGenerator_Generate.
  case_decide as Hlen.
  - apply nil_length_inv in Hlen. rewrite Hlen. split.
    + intros [= <-]. constructor.
    + by intros ->%Forall2_nil_inv_l.
  - rewrite rewriteEach_returns_iff. split; [by intros (new & -> & Hnew) | eauto].
Qed.

Lemma getKubeRBACProxyAuthzAttributes_returns_iff {St : Type}
    (n : rewrite_config.rewritingAuthorizer (St:=St)) (attributes : ResourceAttributes)
    (ctx : Context) (attr : Attributes) (attrs : list Attributes) :
  Config_ResourceAttributes (rewrite_config.config n) = Some attributes →
  is_Some (Rewrites (rewrite_config.config n)) →
  rewrite_config.getKubeRBACProxyAuthzAttributes n ctx attr = Returned attrs
  ↔ Forall2 (spec.substitutedInto rewrite_config.templateWithValue attributes attr)
      (rewrite.GetKubeRBACProxyParams ctx) attrs.
Proof.
  intros Hra [rewrites Hrewrites].
  unfold rewrite_config.getKubeRBACProxyAuthzAttributes. rewrite Hra, Hrewrites.
  change (rewrite_config.GetKubeRBACProxyParams ctx) with (rewrite.GetKubeRBACProxyParams ctx).
  case_decide as Hlen.
  - apply nil_length_inv in Hlen. rewrite Hlen. split.
    + intros [= <-]. constructor.
    + by intros ->%Forall2_nil_inv_l.
  - rewrite config_rewriteEach_returns_iff. split; [by intros (new & -> & Hnew) | eauto].
Qed.

(** When every field parses, every field renders for every value, in both
    copies. *)
Lemma parsed_fieldsRender (attributes : ResourceAttributes) (params : list string) :
  (∀ field, field ∈ spec.fieldsOf attributes → (Parse text_template field).2 = None) →
  spec.fieldsRender rewrite.templateWithValue attributes params ∧
  spec.fieldsRender rewrite_config.templateWithValue attributes params.
Proof.
  intros Hparsed.
  split; intros field param Hfield _;
    destruct (proj1 (Parse_parsed text_template field) (Hparsed field Hfield)) as [t Ht];
    destruct (templateWithValue_parsed field param t Ht) as [Heq Hcfg];
    rewrite ?Hcfg, Heq; eauto.
Qed.

(** The fields either all parse, or one of them does not. *)
Lemma fields_parse_or_not (attributes : ResourceAttributes) :
  (∀ field, field ∈ spec.fieldsOf attributes → (Parse text_template field).2 = None) ∨
  (∃ field e, field ∈ spec.fieldsOf attributes ∧ parse text_template field = inr e).
Proof.
  assert (∀ fields : list string,
            (∀ field, field ∈ fields → (Parse text_template field).2 = None) ∨
            (∃ field e, field ∈ fields ∧ parse text_template field = inr e)) as Hlist.
  { induction fields as [|f fields IH].
    - left. by intros field ?%elem_of_nil.
    - destruct (parse text_template f) as [t|e] eqn:Hf.
      + destruct IH as [Hall | (field & e & Hfield & He)].
        * left. intros field [->|Hfield]%elem_of_cons; [|by apply Hall].
          apply Parse_parsed. eauto.
        * right. exists field, e. split; [by right | done].
      + right. exists f, e. split; [by left | done]. }
  apply Hlist.
Qed.

(** One field that does not parse makes the record of every value panic:
    the first such field stops the evaluation of the composite literal. *)
Ltac field_parsed_or_panics f param :=
  let t := fresh "t" in
  let e := fresh "e" in
  let Hf := fresh "Hf" in
  let Heq := fresh "Heq" in
  let Hcfg := fresh "Hcfg" in
  destruct (parse text_template f) as [t|e] eqn:Hf;
  [ destruct (templateWithValue_parsed f param t Hf) as [Heq Hcfg];
    rewrite Hcfg, Heq; cbn [Outcome_bind]; clear Heq Hcfg
  | destruct (templateWithValue_not_parsed f param e Hf) as [Heq Hcfg];
    rewrite Hcfg, Heq; cbn [Outcome_bind];
    split; [done | exists f, e; split_and!; [unfold spec.fieldsOf; set_solver | done | done]] ].

Lemma rewritten_not_parsed (attributes : ResourceAttributes) (attr : Attributes)
    (param : string) :
  (∃ field e, field ∈ spec.fieldsOf attributes ∧ parse text_template field = inr e) →
  rewrite.rewritten attributes attr param = Panicked nilDereference ∧
  ∃ field e, field ∈ spec.fieldsOf attributes ∧ parse text_template field = inr e ∧
             rewrite_config.rewritten attributes (User attr) (Verb attr) param
             = Panicked (panicError e).
Proof.
  intros (field & e & Hfield & He).
  unfold rewrite.rewritten, rewrite_config.rewritten.
  field_parsed_or_panics (RA_Namespace attributes) param.
  field_parsed_or_panics (RA_APIGroup attributes) param.
  field_parsed_or_panics (RA_APIVersion attributes) param.
  field_parsed_or_panics (RA_Resource attributes) param.
  field_parsed_or_panics (RA_Subresource attributes) param.
  field_parsed_or_panics (RA_Name attributes) param.
  unfold spec.fieldsOf in Hfield.
  repeat (apply elem_of_cons in Hfield as [->|Hfield]; [congruence|]).
  by apply elem_of_nil in Hfield.
Qed.


End substitution.

(** ** The stand-in template engine satisfies the law *)

Lemma append_empty (s : string) : s +:+ "" = s.
Proof.
  induction s as [|c s IH]; [done|].
  change (String c (s +:+ "") = String c s). by rewrite IH.
Qed.

Lemma append_snoc (text : string) (c : ascii) (rest : string) :
  (text +:+ String c "") +:+ rest = text +:+ String c rest.
Proof.
  induction text as [|d text IH]; [done|].
  change (String d ((text +:+ String c "") +:+ rest) = String d (text +:+ String c rest)).
  by rewrite IH.
Qed.

Lemma scan_text_step (c : ascii) (rest text : string) :
  hasAction (String c rest) = false →
  hasAction rest = false ∧
  examples.scan (String c rest) (examples.InText text)
  = examples.scan rest (examples.InText (text +:+ String c "")).
Proof.
  destruct rest as [|d rest']; [done|].
  intros Hplain. simpl in *.
  destruct (decide (c = "{"%char ∧ d = "{"%char)); done.
Qed.

Lemma scan_plain_text (s text : string) :
  hasAction s = false →
  examples.scan s (examples.InText text) = Some (examples.textNodes (text +:+ s)).
Proof.
  revert text. induction s as [|c rest IH]; intros text Hplain.
  - cbn [examples.scan]. by rewrite append_empty.
  - destruct (scan_text_step c rest text Hplain) as [Hrest ->].
    rewrite (IH (text +:+ String c "") Hrest). by rewrite append_snoc.
Qed.

Lemma fieldTemplates_laws : @TextTemplateLaws examples.fieldTemplates.
Proof.
  constructor. intros s Hplain. simpl.
  rewrite (scan_plain_text s "" Hplain). change ("" +:+ s) with s.
  eexists. split; [done|]. intros v.
  unfold examples.textNodes. case_decide as Hs; [by subst s | done].
Qed.

(** ** The AND-combinator *)

Section and_combinator.
Context `{!TemplateEngine text_template}.

(** The loop of the two authorizers is the same loop. *)
Lemma authorizeEach_copies_agree {St : Type} (delegate : Authorizer St) (ctx : Context)
    (authorized : Decision) (attrs : list Attributes) (s : St) :
  rewrite_config.authorizeEach delegate ctx authorized attrs s
  = rewrite.authorizeEach delegate ctx authorized attrs s.
Proof.
  reflexivity.
Qed.

(** While the delegate allows, the loop goes on, and remembers Allow. *)
Lemma authorizeEach_skip (answer : Attributes → Result) (ctx : Context) (i : nat)
    (authorized : Decision) (attrs log : list Attributes) :
  Forall (spec.allowedBy answer) (take i attrs) →
  rewrite.authorizeEach (spec.recording answer) ctx authorized attrs log
  = rewrite.authorizeEach (spec.recording answer) ctx
      (if take i attrs is [] then authorized else DecisionAllow)
      (drop i attrs) (log ++ take i attrs).
Proof.
  revert authorized attrs log.
  induction i as [|i IH]; intros authorized attrs log Hallowed.
  { simpl. by rewrite app_nil_r. }
  destruct attrs as [|a attrs]; [simpl; by rewrite app_nil_r|].
  simpl in Hallowed. apply Forall_cons in Hallowed as [[Hdec Herr] Hallowed].
  simpl. unfold M_bind, spec.recording at 1.
  destruct (answer a) as [[dec reason] err]. simpl in Hdec, Herr. subst dec err.
  case_decide; [done|].
  rewrite (IH DecisionAllow attrs (log ++ [a]) Hallowed), <- app_assoc. simpl.
  by destruct (take i attrs).
Qed.

Lemma authorizeEach_all_allowed (answer : Attributes → Result) (ctx : Context)
    (attrs log : list Attributes) :
  attrs ≠ [] →
  Forall (spec.allowedBy answer) attrs →
  rewrite.authorizeEach (spec.recording answer) ctx DecisionDeny attrs log
  = (Returned (DecisionAllow, "", None), log ++ attrs).
Proof.
  intros Hne Hall.
  rewrite (authorizeEach_skip answer ctx (length attrs)); rewrite firstn_all; [|done].
  rewrite drop_all. by destruct attrs.
Qed.

Lemma authorizeEach_first_refused (answer : Attributes → Result) (ctx : Context)
    (attrs log : list Attributes) (i : nat) (a : Attributes) :
  spec.firstRefused answer attrs i a →
  rewrite.authorizeEach (spec.recording answer) ctx DecisionDeny attrs log
  = (Returned (spec.refusal a (answer a)), log ++ take (S i) attrs).
Proof.
  intros (Hi & Hrefused & Hallowed).
  rewrite (authorizeEach_skip answer ctx i _ _ _ Hallowed).
  rewrite (drop_S attrs a i Hi), (take_S_r attrs i a Hi), app_assoc.
  simpl. unfold M_bind, spec.recording at 1, spec.refusal.
  unfold spec.allowedBy in Hrefused.
  destruct (answer a) as [[dec reason] [e|]]; simpl in *; [done|].
  case_decide as Hdec; [done|]. destruct Hrefused. split; [|done].
  by destruct (decide (dec = DecisionAllow)).
Qed.

(** Every sequence is either allowed throughout or has a first refused set. *)
Lemma attrs_decided (answer : Attributes → Result) (attrs : list Attributes) :
  Forall (spec.allowedBy answer) attrs ∨ ∃ i a, spec.firstRefused answer attrs i a.
Proof.
  induction attrs as [|a attrs IH]; [left; constructor|].
  destruct (decide (spec.allowedBy answer a)) as [Ha|Ha].
  - destruct IH as [Hall | (i & a' & Hi & Hrefused & Hallowed)].
    + left. by constructor.
    + right. exists (S i), a'. split_and!; [done | done | by constructor].
  - right. exists 0, a. split_and!; [done | done | constructor].
Qed.

Lemma firstRefused_not_all (answer : Attributes → Result) (attrs : list Attributes)
    (i : nat) (a : Attributes) :
  spec.firstRefused answer attrs i a → ¬ Forall (spec.allowedBy answer) attrs.
Proof.
  intros (Hi & Hrefused & _) Hall. apply Hrefused.
  rewrite Forall_lookup in Hall. by apply (Hall i).
Qed.

(** C1, as the code has it.  For a generator that returns the sequence
    [attrs] and a recording delegate: the delegate is asked about the sets in
    generation order, once each, up to and including the first set it does not
    allow (decision other than Allow, or an error), and about no later set;
    at that set the result is Deny, with the coordinates of the set in the
    reason when the delegate reported no error and in the error when it did;
    when the sequence is not empty and every set is allowed the result is
    Allow; an empty sequence yields Deny without any call; so the result is
    Allow exactly when the sequence is not empty and every set is allowed.
    [rewritingAuthorizer.Authorize] agrees on every non-empty sequence. *)
Theorem AND_combinator_stops_at_first_refusal (answer : Attributes → Result)
    (attrGen : AttributesGenerator) (ctx : Context) (attr : Attributes)
    (attrs log : list Attributes) :
  attrGen ctx attr = Returned attrs →
  let run := rewrite.Authorize (spec.recording answer) attrGen ctx attr log in
  (Forall (spec.allowedBy answer) attrs ∨ ∃ i a, spec.firstRefused answer attrs i a) ∧
  (attrs ≠ [] → Forall (spec.allowedBy answer) attrs →
     run = (Returned (DecisionAllow, "", None), log ++ attrs)) ∧
  (∀ i a, spec.firstRefused answer attrs i a →
     run = (Returned (spec.refusal a (answer a)), log ++ take (S i) attrs)) ∧
  (attrs = [] →
     run = (Returned (DecisionDeny, "No attribute combination matched", None), log)) ∧
  ((∃ reason err log', run = (Returned (DecisionAllow, reason, err), log'))
     ↔ attrs ≠ [] ∧ Forall (spec.allowedBy answer) attrs) ∧
  (∀ n : rewrite_config.rewritingAuthorizer,
     rewrite_config.delegate n = spec.recording answer →
     rewrite_config.getKubeRBACProxyAuthzAttributes n ctx attr = Returned attrs →
     attrs ≠ [] →
     rewrite_config.Authorize n ctx attr log = run).
Proof.
  intros Hgen run.
  assert (run = rewrite.authorizeEach (spec.recording answer) ctx DecisionDeny attrs log)
    as Hrun.
  { unfold run, rewrite.Authorize, M_bind, M_lift. by rewrite Hgen. }
  assert (attrs = [] →
          run = (Returned (DecisionDeny, "No attribute combination matched", None), log))
    as Hempty by (by intros ->).
  split_and!.
  - apply attrs_decided.
  - intros Hne Hall. rewrite Hrun. by apply authorizeEach_all_allowed.
  - intros i a Hfirst. rewrite Hrun. by apply authorizeEach_first_refused.
  - exact Hempty.
  - split.
    + intros (reason & err & log' & Hallow).
      destruct attrs as [|a0 attrs0]; [by rewrite Hempty in Hallow|].
      split; [done|].
      destruct (attrs_decided answer (a0 :: attrs0)) as [Hall | (i & a & Hfirst)]; [done|].
      rewrite Hrun, (authorizeEach_first_refused _ _ _ _ _ _ Hfirst) in Hallow.
      unfold spec.refusal in Hallow. by destruct ((answer a).2).
    + intros [Hne Hall]. exists "", None, (log ++ attrs).
      rewrite Hrun. by apply authorizeEach_all_allowed.
  - intros n Hdelegate Hattrs Hne. rewrite Hrun.
    unfold rewrite_config.Authorize, M_bind, M_lift. rewrite Hattrs.
    case_decide as Hlen; [by apply nil_length_inv in Hlen|].
    rewrite Hdelegate. apply authorizeEach_copies_agree.
Qed.

(** C3, on the delegating authorizer of the decomposed pipeline.  When the
    generator returns zero attribute sets, [delegateAuthorizer.Authorize]
    returns Deny with the reason of its final fall-through and a nil error,
    without calling the delegate: the error does not tell the outcome from a
    denial. *)
Theorem delegateAuthorizer_zero_sets_nil_error {St : Type} (delegate : Authorizer St)
    (attrGen : AttributesGenerator) (ctx : Context) (attr : Attributes) (s : St) :
  attrGen ctx attr = Returned [] →
  rewrite.Authorize delegate attrGen ctx attr s
  = (Returned (DecisionDeny, "No attribute combination matched", None), s).
Proof.
  intros Hgen. unfold rewrite.Authorize, M_bind, M_lift. by rewrite Hgen.
Qed.

(** The sibling [rewritingAuthorizer.Authorize] does report zero attribute
    sets as a malformed request, with an error. *)
Lemma rewritingAuthorizer_zero_sets_bad_request {St : Type}
    (n : rewrite_config.rewritingAuthorizer (St:=St)) (ctx : Context) (attr : Attributes)
    (s : St) :
  rewrite_config.getKubeRBACProxyAuthzAttributes n ctx attr = Returned [] →
  rewrite_config.Authorize n ctx attr s
  = (Returned (DecisionDeny, "The request or configuration is malformed.",
               Some (errorString "bad request. The request or configuration is malformed")),
     s).
Proof.
  intros Hgen. unfold rewrite_config.Authorize, M_bind, M_lift. by rewrite Hgen.
Qed.

End and_combinator.

(** ** The composition root *)

Lemma NewStaticAuthorizer_well_formed (rules : list authz.StaticAuthorizationConfig) :
  (∀ r, r ∈ rules → spec.ruleWellFormed r) →
  authz.NewStaticAuthorizer rules = inl rules.
Proof.
  intros Hall. unfold authz.NewStaticAuthorizer.
  destruct (authz.firstInvalid rules) eqn:Hinvalid; [|done].
  apply firstInvalid_true_iff, Exists_exists in Hinvalid as (r & Hr & Hbad).
  destruct Hbad. by apply Hall.
Qed.

Section composition_root.
Context `{PathMatch} `{!TemplateEngine text_template} {St : Type}.

Lemma pathSwitch_strategy (allowPaths ignorePaths : list string) :
  allowPaths = [] ∨ ignorePaths = [] →
  authorization.pathSwitch (St:=St) [] allowPaths ignorePaths
  = inl (spec.pathStrategy allowPaths ignorePaths).
Proof.
  unfold authorization.pathSwitch, spec.pathStrategy.
  intros [-> | ->]; [destruct ignorePaths | destruct allowPaths]; simpl; try done;
    repeat case_bool_decide; simpl in *; try done; lia.
Qed.

Lemma generatorSwitch_selects (config : authorization.AuthzConfig)
    (rc : RewriteAttributesConfig) :
  authorization.Embedded_RewriteAttributesConfig config = Some rc →
  authorization.generatorSwitch config = Returned (spec.selectGenerator rc).
Proof.
  intros Hrc. unfold authorization.generatorSwitch, spec.selectGenerator. rewrite Hrc.
  destruct (Config_ResourceAttributes rc), (Rewrites rc); done.
Qed.

(** What [SetupAuthorizer] returns for a configuration it accepts. *)
Lemma SetupAuthorizer_accepts (config : authorization.AuthzConfig)
    (rc : RewriteAttributesConfig) (allowPaths ignorePaths : list string)
    (delegate : authorization.AuthorizationInfo St) :
  authorization.Embedded_RewriteAttributesConfig config = Some rc →
  allowPaths = [] ∨ ignorePaths = [] →
  (∀ rules r, authorization.Static config = Some rules → r ∈ rules → spec.ruleWellFormed r) →
  authorization.SetupAuthorizer (Some config) allowPaths ignorePaths (Some delegate)
  = Returned (inl
      (rewrite.NewDelegateAuthorizer
         (union_New
            (spec.strategies allowPaths ignorePaths (authorization.Static config)
               (authorization.AuthorizationInfo_Authorizer delegate)))
         (spec.selectGenerator rc))).
Proof.
  intros Hrc Hpaths Hstatic.
  unfold authorization.SetupAuthorizer, spec.strategies.
  rewrite (pathSwitch_strategy _ _ Hpaths), (generatorSwitch_selects _ _ Hrc).
  unfold authorization.staticStep, spec.staticStrategy.
  destruct (authorization.Static config) as [rules|]; simpl.
  - rewrite (NewStaticAuthorizer_well_formed rules); [|by eauto].
    by rewrite <- app_assoc.
  - done.
Qed.

(** The strategies of the root are the strategies in front of the delegate,
    and the delegate. *)
Lemma strategies_locals (allowPaths ignorePaths : list string)
    (static : option (list authz.StaticAuthorizationConfig)) (delegate : Authorizer St) :
  spec.strategies allowPaths ignorePaths static delegate
  = (pureAuthorizer <$> spec.localStrategies allowPaths ignorePaths static) ++ [delegate].
Proof.
  unfold spec.strategies, spec.localStrategies, spec.pathStrategy, spec.staticStrategy.
  rewrite fmap_app, <- app_assoc.
  destruct allowPaths, ignorePaths, static; done.
Qed.

(** The generator the configuration selects returns exactly the attribute
    sets the request stands for. *)
Lemma selectGenerator_returns_iff (rc : RewriteAttributesConfig) (ctx : Context)
    (attr : Attributes) (attrs : list Attributes) :
  spec.selectGenerator rc ctx attr = Returned attrs ↔ spec.generatedSets rc ctx attr attrs.
Proof.
  unfold spec.selectGenerator, spec.generatedSets.
  destruct (Config_ResourceAttributes rc) as [attributes|].
  - destruct (Rewrites rc) as [rewrites|].
    + apply Generate_returns_iff.
    + simpl. split; [by intros [= <-] | by intros ->].
  - simpl. split; [by intros [= <-] | by intros ->].
Qed.

End composition_root.

Section and_over_or.
Context `{PathMatch} `{!TemplateEngine text_template}.

(** The OR-combinator over strategies that are functions of the attribute
    set, followed by a recording delegate: it answers by the first opinion,
    and the delegate is asked exactly when every strategy abstains. *)
Lemma unionAuthorize_locals (locals : list (Attributes → Result))
    (answer : Attributes → Result) (ctx : Context) (a : Attributes)
    (errlist : list error) (reasonlist : list string) (log : list Attributes) :
  unionAuthorize ((pureAuthorizer <$> locals) ++ [spec.recording answer]) ctx a
    errlist reasonlist log
  = (Returned
       match filter (λ r : Result, r.1.1 ≠ DecisionNoOpinion)
               (((λ f, f a) <$> locals) ++ [answer a]) with
       | r :: _ => r
       | [] =>
           (DecisionNoOpinion,
            joinLines (reasonlist ++
                       filter (λ reason : string, reason ≠ "")
                         ((λ r : Result, r.1.2) <$> (((λ f, f a) <$> locals) ++ [answer a]))),
            NewAggregate (errlist ++
                          omap (λ r : Result, r.2) (((λ f, f a) <$> locals) ++ [answer a])))
       end,
     log ++ if spec.reachesDelegate locals a then [a] else []).
Proof.
  revert errlist reasonlist. induction locals as [|f locals IH]; intros errlist reasonlist.
  - cbn [fmap list_fmap app unionAuthorize spec.reachesDelegate forallb].
    unfold M_bind, spec.recording at 1.
    destruct (answer a) as [[dec reason] err] eqn:Hanswer.
    destruct dec.
    + rewrite filter_cons_True by done. done.
    + rewrite filter_cons_True by done. done.
    + rewrite filter_cons_False by (simpl; tauto). rewrite filter_nil.
      cbn [unionAuthorize fmap list_fmap omap list_omap]. unfold M_ret.
      destruct reason, err; simpl; by rewrite ?app_nil_r.
  - cbn [fmap list_fmap app unionAuthorize spec.reachesDelegate forallb].
    unfold M_bind, pureAuthorizer at 1, M_ret at 1.
    destruct (f a) as [[dec reason] err] eqn:Hf. cbn [fst snd].
    destruct dec.
    + rewrite filter_cons_True by done.
      rewrite bool_decide_false by done. cbn [andb]. by rewrite app_nil_r.
    + rewrite filter_cons_True by done.
      rewrite bool_decide_false by done. cbn [andb]. by rewrite app_nil_r.
    + rewrite filter_cons_False by (simpl; tauto).
      rewrite bool_decide_true by done. cbn [andb].
      rewrite IH. do 2 f_equal.
      destruct (filter _ (((λ f0, f0 a) <$> locals) ++ [answer a])) as [|r rest]; [|done].
      destruct reason, err; simpl; by rewrite <- ?app_assoc.
Qed.

Lemma union_New_locals (locals : list (Attributes → Result))
    (answer : Attributes → Result) (ctx : Context) (a : Attributes) (log : list Attributes) :
  union_New ((pureAuthorizer <$> locals) ++ [spec.recording answer]) ctx a log
  = (Returned (spec.orAnswer locals answer a),
     log ++ if spec.reachesDelegate locals a then [a] else []).
Proof.
  unfold union_New. rewrite unionAuthorize_locals. done.
Qed.

Lemma filter_reaches_cons (locals : list (Attributes → Result)) (a : Attributes)
    (attrs : list Attributes) :
  filter (λ a, spec.reachesDelegate locals a) (a :: attrs)
  = (if spec.reachesDelegate locals a then [a] else []) ++
    filter (λ a, spec.reachesDelegate locals a) attrs.
Proof.
  destruct (spec.reachesDelegate locals a) eqn:Hreaches.
  - rewrite filter_cons_True; [done | by rewrite Hreaches].
  - rewrite filter_cons_False; [done | rewrite Hreaches; simpl; tauto].
Qed.

(** The loop of the AND-combinator over the OR-combinator: while the
    OR-combinator allows, the loop goes on. *)
Lemma authorizeEach_or_skip (locals : list (Attributes → Result))
    (answer : Attributes → Result) (ctx : Context) (i : nat) (authorized : Decision)
    (attrs log : list Attributes) :
  Forall (spec.allowedBy (spec.orAnswer locals answer)) (take i attrs) →
  rewrite.authorizeEach (union_New ((pureAuthorizer <$> locals) ++ [spec.recording answer]))
    ctx authorized attrs log
  = rewrite.authorizeEach (union_New ((pureAuthorizer <$> locals) ++ [spec.recording answer]))
      ctx (if take i attrs is [] then authorized else DecisionAllow)
      (drop i attrs) (log ++ filter (λ a, spec.reachesDelegate locals a) (take i attrs)).
Proof.
  revert authorized attrs log.
  induction i as [|i IH]; intros authorized attrs log Hallowed.
  { simpl. by rewrite app_nil_r. }
  destruct attrs as [|a attrs]; [simpl; by rewrite app_nil_r|].
  cbn [take] in Hallowed. apply Forall_cons in Hallowed as [[Hdec Herr] Hallowed].
  cbn [take drop rewrite.authorizeEach]. unfold M_bind. rewrite union_New_locals.
  destruct (spec.orAnswer locals answer a) as [[dec reason] err].
  simpl in Hdec, Herr. subst dec err.
  case_decide; [done|].
  rewrite (IH DecisionAllow attrs _ Hallowed), filter_reaches_cons, <- !app_assoc.
  by destruct (take i attrs).
Qed.

Lemma authorizeEach_or_all_allowed (locals : list (Attributes → Result))
    (answer : Attributes → Result) (ctx : Context) (attrs log : list Attributes) :
  attrs ≠ [] →
  Forall (spec.allowedBy (spec.orAnswer locals answer)) attrs →
  rewrite.authorizeEach (union_New ((pureAuthorizer <$> locals) ++ [spec.recording answer]))
    ctx DecisionDeny attrs log
  = (Returned (DecisionAllow, "", None),
     log ++ filter (λ a, spec.reachesDelegate locals a) attrs).
Proof.
  intros Hne Hall.
  rewrite (authorizeEach_or_skip locals answer ctx (length attrs)); rewrite firstn_all; [|done].
  rewrite drop_all. by destruct attrs.
Qed.

Lemma authorizeEach_or_first_refused (locals : list (Attributes → Result))
    (answer : Attributes → Result) (ctx : Context) (attrs log : list Attributes)
    (i : nat) (a : Attributes) :
  spec.firstRefused (spec.orAnswer locals answer) attrs i a →
  rewrite.authorizeEach (union_New ((pureAuthorizer <$> locals) ++ [spec.recording answer]))
    ctx DecisionDeny attrs log
  = (Returned (spec.refusal a (spec.orAnswer locals answer a)),
     log ++ filter (λ a, spec.reachesDelegate locals a) (take (S i) attrs)).
Proof.
  intros (Hi & Hrefused & Hallowed).
  rewrite (authorizeEach_or_skip locals answer ctx i _ _ _ Hallowed).
  rewrite (drop_S attrs a i Hi), (take_S_r attrs i a Hi), filter_app, app_assoc.
  cbn [rewrite.authorizeEach]. unfold M_bind. rewrite union_New_locals.
  rewrite filter_reaches_cons, filter_nil, app_nil_r.
  unfold spec.refusal. unfold spec.allowedBy in Hrefused.
  destruct (spec.orAnswer locals answer a) as [[dec reason] [e|]]; simpl in *; [done|].
  case_decide as Hdec; [done|]. destruct Hrefused. split; [|done].
  by destruct (decide (dec = DecisionAllow)).
Qed.


End and_over_or.


(** * Further properties of the code *)

(** ** The shape of what the AND-combinators return *)

Section verdicts.
Context `{!TemplateEngine text_template} {St : Type}.

Lemma authorizeEach_finalVerdict (delegate : Authorizer St) (ctx : Context)
    (authorized : Decision) (attrs : list Attributes) (s s' : St) (r : Result) :
  rewrite.authorizeEach delegate ctx authorized attrs s = (Returned r, s') →
  more.finalVerdict r.
Proof.
  revert authorized s. induction attrs as [|a attrs IH]; intros authorized s; simpl.
  - case_decide as Hallow; intros [= <- _]; [subst authorized; by left | by right].
  - unfold M_bind. destruct (delegate ctx a s) as [[[[dec reason] [e|]]|v] s1]; [| |done].
    + intros [= <- _]. by right.
    + case_decide as Hdec; [|by apply IH].
      intros [= <- _]. by right.
Qed.

(** The default authorizer is the delegating authorizer driven by the
    default generator. *)
Lemma defaultAuthorizer_is_default_generator (delegate : Authorizer St) (ctx : Context)
    (attr : Attributes) (s : St) :
  default_authorizer.Authorize delegate ctx attr s
  = rewrite.Authorize delegate rewrite.DefaultAttributesGenerator_Generate ctx attr s.
Proof.
  unfold default_authorizer.Authorize, rewrite.Authorize, M_bind, M_lift. simpl.
  unfold M_bind.
  match goal with |- context [delegate ctx ?a s] => destruct (delegate ctx a s)
    as [[[[dec reason] [e|]]|v] s1] end; try done; by repeat case_decide.
Qed.

(** The resource-bound authorizer is the delegating authorizer driven by the
    bound generator. *)
Lemma ressourceBoundAuthorizer_is_bound_generator (n : bound.ressourceBoundAuthorizer)
    (ctx : Context) (attr : Attributes) (s : St) :
  bound.Authorize n ctx attr s
  = rewrite.Authorize (bound.delegate n)
      (rewrite.BoundAttributesGenerator_Generate (bound.config n ≫= Config_ResourceAttributes))
      ctx attr s.
Proof.
  unfold bound.Authorize, rewrite.Authorize, rewrite.BoundAttributesGenerator_Generate,
    M_bind, M_lift.
  destruct (bound.config n ≫= Config_ResourceAttributes) as [ra|]; [|done]. simpl.
  unfold M_bind.
  match goal with |- context [bound.delegate n ctx ?a s] => destruct (bound.delegate n ctx a s)
    as [[[[dec reason] [e|]]|v] s1] end; try done; by repeat case_decide.
Qed.

(** X1.  Whatever the delegate and the generator, a result returned by the
    delegating authorizer, by the rewriting authorizer, by the default
    authorizer or by the resource-bound authorizer is a final verdict: never
    NoOpinion; Allow only with an empty reason and no error; an error only
    with Deny. *)
Theorem AND_combinators_return_final_verdicts (delegate : Authorizer St)
    (ctx : Context) (attr : Attributes) (s s' : St) (r : Result) :
  (∀ attrGen, rewrite.Authorize delegate attrGen ctx attr s = (Returned r, s') →
     more.finalVerdict r) ∧
  (∀ config, rewrite_config.Authorize (rewrite_config.NewRewritingAuthorizer delegate config)
               ctx attr s = (Returned r, s') →
     more.finalVerdict r) ∧
  (default_authorizer.Authorize delegate ctx attr s = (Returned r, s') → more.finalVerdict r) ∧
  (∀ config, bound.Authorize (bound.NewRessourceBoundAuthorizer delegate config) ctx attr s
             = (Returned r, s') →
     more.finalVerdict r) ∧
  (more.finalVerdict r → r.1.1 ≠ DecisionNoOpinion ∧ (is_Some r.2 → r.1.1 = DecisionDeny)).
Proof.
  assert (∀ attrGen, rewrite.Authorize delegate attrGen ctx attr s = (Returned r, s') →
                     more.finalVerdict r) as Hdelegating.
  { intros attrGen. unfold rewrite.Authorize, M_bind, M_lift.
    destruct (attrGen ctx attr) as [attrs|v]; [|done].
    apply authorizeEach_finalVerdict. }
  split_and!.
  - exact Hdelegating.
  - intros config. unfold rewrite_config.Authorize, M_bind, M_lift.
    destruct (rewrite_config.getKubeRBACProxyAuthzAttributes _ ctx attr) as [attrs|v]; [|done].
    case_decide.
    + intros [= <- _]. by right.
    + simpl. rewrite authorizeEach_copies_agree. apply authorizeEach_finalVerdict.
  - rewrite defaultAuthorizer_is_default_generator. apply Hdelegating.
  - intros config. rewrite ressourceBoundAuthorizer_is_bound_generator. apply Hdelegating.
  - intros Hfinal. split.
    + by destruct Hfinal as [-> | ->].
    + intros [e He]. destruct Hfinal as [-> | Hdeny]; [done | exact Hdeny].
Qed.

End verdicts.

(** ** The authorizers of the two generations agree *)

Section generations.
Context `{!TemplateEngine text_template} {St : Type}.

Lemma rewritingAuthorizer_one_set (n : rewrite_config.rewritingAuthorizer (St:=St))
    (ctx : Context) (attr a : Attributes) (s : St) :
  rewrite_config.getKubeRBACProxyAuthzAttributes n ctx attr = Returned [a] →
  rewrite_config.Authorize n ctx attr s
  = rewrite.authorizeEach (rewrite_config.delegate n) ctx DecisionDeny [a] s.
Proof.
  intros Hone. unfold rewrite_config.Authorize, M_bind, M_lift. by rewrite Hone.
Qed.

(** X2.  Without resource attributes (in particular without any rewrite
    configuration) the rewriting authorizer, the default authorizer and the
    delegating authorizer driven by the default generator are the same
    function of the request and of the state of the delegate. *)
Theorem default_authorizers_agree (delegate : Authorizer St)
    (config : option RewriteAttributesConfig) (ctx : Context) (attr : Attributes) (s : St) :
  config ≫= Config_ResourceAttributes = None →
  rewrite_config.Authorize (rewrite_config.NewRewritingAuthorizer delegate config) ctx attr s
  = default_authorizer.Authorize delegate ctx attr s ∧
  default_authorizer.Authorize delegate ctx attr s
  = rewrite.Authorize delegate rewrite.DefaultAttributesGenerator_Generate ctx attr s.
Proof.
  intros Hnone. split; [|apply defaultAuthorizer_is_default_generator].
  rewrite defaultAuthorizer_is_default_generator.
  erewrite rewritingAuthorizer_one_set.
  - unfold rewrite.Authorize, M_bind, M_lift. reflexivity.
  - unfold rewrite_config.getKubeRBACProxyAuthzAttributes, rewrite_config.NewRewritingAuthorizer.
    destruct config as [c|]; simpl in *; [by rewrite Hnone | done].
Qed.

(** X3.  With resource attributes and no rewrites the rewriting authorizer,
    the resource-bound authorizer and the delegating authorizer driven by the
    bound generator are the same function.  Without resource attributes the
    resource-bound authorizer panics before it calls the delegate, where the
    rewriting authorizer falls back to the default attributes. *)
Theorem bound_authorizers_agree (delegate : Authorizer St)
    (config : option RewriteAttributesConfig) (ctx : Context) (attr : Attributes) (s : St) :
  (∀ c ra, config = Some c → Config_ResourceAttributes c = Some ra → Rewrites c = None →
     rewrite_config.Authorize (rewrite_config.NewRewritingAuthorizer delegate config)
       ctx attr s
     = bound.Authorize (bound.NewRessourceBoundAuthorizer delegate config) ctx attr s ∧
     bound.Authorize (bound.NewRessourceBoundAuthorizer delegate config) ctx attr s
     = rewrite.Authorize delegate (rewrite.BoundAttributesGenerator_Generate (Some ra))
         ctx attr s) ∧
  (config ≫= Config_ResourceAttributes = None →
     bound.Authorize (bound.NewRessourceBoundAuthorizer delegate config) ctx attr s
     = (Panicked nilDereference, s)).
Proof.
  split.
  - intros c ra -> Hra Hrewrites.
    rewrite ressourceBoundAuthorizer_is_bound_generator. simpl. rewrite Hra.
    split; [|done].
    erewrite rewritingAuthorizer_one_set.
    + unfold rewrite.Authorize, M_bind, M_lift. reflexivity.
    + unfold rewrite_config.getKubeRBACProxyAuthzAttributes. simpl.
      by rewrite Hra, Hrewrites.
  - intros Hnone. unfold bound.Authorize. simpl. by rewrite Hnone.
Qed.

Lemma templateWithValue_copies_agree (templateString value : string) :
  (Parse text_template templateString).2 = None →
  rewrite_config.templateWithValue templateString value
  = rewrite.templateWithValue templateString value.
Proof.
  unfold rewrite_config.templateWithValue, rewrite.templateWithValue.
  destruct (Parse text_template templateString) as [tmpl err]. simpl. by intros ->.
Qed.

Lemma rewriteEach_copies_agree (attributes : ResourceAttributes) (attr : Attributes)
    (params : list string) (attrs : list Attributes) :
  (∀ field, field ∈ spec.fieldsOf attributes → (Parse text_template field).2 = None) →
  rewrite_config.rewriteEach attributes (User attr) (Verb attr) params attrs
  = rewrite.rewriteEach attributes attr params attrs.
Proof.
  intros Hparse. revert attrs. induction params as [|param params IH]; intros attrs; [done|].
  simpl. unfold rewrite_config.rewritten, rewrite.rewritten.
  rewrite !templateWithValue_copies_agree by (apply Hparse; set_solver).
  repeat match goal with
         | |- Outcome_bind (Outcome_bind ?o _) _ = _ => destruct o; simpl; [|done]
         end.
  apply IH.
Qed.

(** X4.  With resource attributes and rewrites, when every field of the
    template parses and the context carries at least one value, the rewriting
    authorizer and the delegating authorizer driven by the rewriting generator
    are the same function; their attribute sets agree for every context. *)
Theorem rewriting_authorizers_agree (delegate : Authorizer St)
    (c : RewriteAttributesConfig) (attributes : ResourceAttributes) (ctx : Context)
    (attr : Attributes) (s : St) :
  Config_ResourceAttributes c = Some attributes →
  is_Some (Rewrites c) →
  (∀ field, field ∈ spec.fieldsOf attributes → (Parse text_template field).2 = None) →
  rewrite_config.getKubeRBACProxyAuthzAttributes
    (rewrite_config.NewRewritingAuthorizer delegate (Some c)) ctx attr
  = rewrite.RewritingAttributesGenerator_Generate (Some attributes) ctx attr ∧
  (rewrite.GetKubeRBACProxyParams ctx ≠ [] →
   rewrite_config.Authorize (rewrite_config.NewRewritingAuthorizer delegate (Some c))
     ctx attr s
   = rewrite.Authorize delegate (rewrite.RewritingAttributesGenerator_Generate (Some attributes))
       ctx attr s).
Proof.
  intros Hra [rewrites Hrewrites] Hparse.
  assert (rewrite_config.getKubeRBACProxyAuthzAttributes
            (rewrite_config.NewRewritingAuthorizer delegate (Some c)) ctx attr
          = rewrite.RewritingAttributesGenerator_Generate (Some attributes) ctx attr) as Hsets.
  { unfold rewrite_config.getKubeRBACProxyAuthzAttributes,
      rewrite.RewritingAttributesGenerator_Generate. simpl. rewrite Hra, Hrewrites.
    change (rewrite_config.GetKubeRBACProxyParams ctx) with (rewrite.GetKubeRBACProxyParams ctx).
    case_decide; [done|]. by apply rewriteEach_copies_agree. }
  split; [exact Hsets|].
  intros Hparams. unfold rewrite_config.Authorize, rewrite.Authorize, M_bind, M_lift.
  rewrite Hsets.
  destruct (rewrite.RewritingAttributesGenerator_Generate (Some attributes) ctx attr)
    as [attrs|v] eqn:Hgenerated; [|done].
  case_decide as Hlen; [|done].
  apply nil_length_inv in Hlen. subst attrs.
  apply Generate_returns_iff, Forall2_nil_inv_r in Hgenerated. done.
Qed.

End generations.

(** ** The request attributes of pkg/authz *)

Section request_attributes.
Context `{MIMEHeaderKey} `{!TemplateEngine html_template}.

Lemma apiVerbOf_in_vocabulary (method : string) :
  authz_config.apiVerbOf method ∈ more.apiVerbs.
Proof.
  unfold authz_config.apiVerbOf, more.apiVerbs. repeat case_decide; set_solver.
Qed.

Lemma authz_rewriteEach_returns_iff (attributes : ResourceAttributes) (u : option UserInfo)
    (r : Request) (params : list string) (allAttrs result : list Attributes) :
  authz_config.rewriteEach attributes u (authz_config.apiVerbOf (Method r)) params allAttrs
  = Returned result
  ↔ ∃ new, result = allAttrs ++ new ∧
           Forall2 (spec.substitutedInto authz.templateWithValue attributes
                      (more.requestAttributes u r)) params new.
Proof.
  revert allAttrs result.
  induction params as [|param params IH]; intros allAttrs result.
  - simpl. split.
    + intros [= <-]. exists []. by rewrite app_nil_r.
    + intros (new & -> & ->%Forall2_nil_inv_l). by rewrite app_nil_r.
  - cbn [authz_config.rewriteEach]. split.
    + intros Hreturned.
      repeat match type of Hreturned with
             | Outcome_bind ?o _ = _ =>
                 destruct o eqn:?; cbn [Outcome_bind] in Hreturned; [|discriminate Hreturned]
             end.
      apply IH in Hreturned as (new & -> & Hnew).
      eexists (_ :: new). rewrite <- app_assoc. split; [done|].
      constructor; [by split_and! | done].
    + intros (new & -> & (a & new' & Ha & Hnew' & ->)%Forall2_cons_inv_l).
      destruct Ha as (Huser & Hverb & -> & -> & -> & -> & -> & -> & Hrequest & Hpath).
      cbn [Outcome_bind]. apply IH. exists new'. rewrite <- app_assoc.
      split; [|done]. do 2 f_equal. destruct a; simpl in *; by subst.
Qed.

(** X5.  [Config.GetRequestAttributes] gives every attribute set the user it
    was called with and a verb of the vocabulary.  Without resource attributes
    it returns the one set for the path of the request; with resource
    attributes and no rewrites the one set bound to them; with both it returns
    a sequence exactly when it is the sequence obtained by substituting, in
    this order, the values of the configured query parameter and then those of
    the configured header, so it returns no set exactly when the request
    carries no value. *)
Theorem GetRequestAttributes_sets (c : authz_config.Config) (u : option UserInfo)
    (r : Request) :
  (authz_config.Cfg_ResourceAttributes c = None →
     authz_config.GetRequestAttributes c u r = Returned [more.requestAttributes u r]) ∧
  (∀ attributes, authz_config.Cfg_ResourceAttributes c = Some attributes →
     authz_config.Cfg_Rewrites c = None →
     authz_config.GetRequestAttributes c u r
     = Returned [more.boundAttributes attributes u (authz_config.apiVerbOf (Method r))]) ∧
  (∀ attributes rewrites, authz_config.Cfg_ResourceAttributes c = Some attributes →
     authz_config.Cfg_Rewrites c = Some rewrites →
     ∀ attrs,
       authz_config.GetRequestAttributes c u r = Returned attrs
       ↔ Forall2 (spec.substitutedInto authz.templateWithValue attributes
                    (more.requestAttributes u r))
           (spec.queryValues rewrites r ++ spec.headerValues rewrites r) attrs) ∧
  (∀ attrs a, authz_config.GetRequestAttributes c u r = Returned attrs → a ∈ attrs →
     User a = u ∧ Verb a = authz_config.apiVerbOf (Method r) ∧ Verb a ∈ more.apiVerbs).
Proof.
  assert (∀ attributes rewrites, authz_config.Cfg_ResourceAttributes c = Some attributes →
     authz_config.Cfg_Rewrites c = Some rewrites →
     ∀ attrs,
       authz_config.GetRequestAttributes c u r = Returned attrs
       ↔ Forall2 (spec.substitutedInto authz.templateWithValue attributes
                    (more.requestAttributes u r))
           (spec.queryValues rewrites r ++ spec.headerValues rewrites r) attrs) as Hrewriting.
  { intros attributes rewrites Hra Hrw attrs.
    unfold authz_config.GetRequestAttributes. rewrite Hra, Hrw.
    match goal with
    | |- context [decide (length ?params = 0)] =>
        assert (params = spec.queryValues rewrites r ++ spec.headerValues rewrites r) as ->
    end.
    { unfold spec.queryValues, spec.headerValues.
      destruct (ByQueryParameter rewrites) as [q|], (ByHTTPHeader rewrites) as [h|]; simpl;
        repeat case_decide; try done;
        repeat match goal with
               | |- context [?m !! ?k] => destruct (m !! k); simpl
               end;
        by rewrite ?app_nil_r. }
    case_decide as Hlen.
    - apply nil_length_inv in Hlen. rewrite Hlen. split.
      + intros [= <-]. constructor.
      + by intros ->%Forall2_nil_inv_l.
    - rewrite authz_rewriteEach_returns_iff.
      split; [by intros (new & -> & Hnew) | eauto]. }
  split_and!.
  - intros Hnone. unfold authz_config.GetRequestAttributes. by rewrite Hnone.
  - intros attributes Hra Hrw. unfold authz_config.GetRequestAttributes. by rewrite Hra, Hrw.
  - exact Hrewriting.
  - intros attrs a Hreturned Ha.
    assert (User a = u ∧ Verb a = authz_config.apiVerbOf (Method r)) as [Huser Hverb].
    { destruct (authz_config.Cfg_ResourceAttributes c) as [attributes|] eqn:Hra.
      - destruct (authz_config.Cfg_Rewrites c) as [rewrites|] eqn:Hrw.
        + apply (Hrewriting attributes rewrites) in Hreturned; [|done..].
          apply list_elem_of_lookup in Ha as [i Hi].
          destruct (Forall2_lookup_r _ _ _ _ _ Hreturned Hi) as (param & _ & Hsub).
          destruct Hsub as (Huser & Hverb & _). done.
        + unfold authz_config.GetRequestAttributes in Hreturned. rewrite Hra, Hrw in Hreturned.
          injection Hreturned as <-. by apply list_elem_of_singleton in Ha as ->.
      - unfold authz_config.GetRequestAttributes in Hreturned. rewrite Hra in Hreturned.
        injection Hreturned as <-. by apply list_elem_of_singleton in Ha as ->. }
    split_and!; [done | done |]. rewrite Hverb. apply apiVerbOf_in_vocabulary.
Qed.

End request_attributes.

(** ** The authorization filter *)

Section authorization_filter.
Context `{MIMEHeaderKey} `{!TemplateEngine html_template}.

Lemma filter_authorizeEach_skip (handler : filters.Handler (list Attributes))
    (answer : Attributes → Result) (req : filters.ServedRequest) (u : UserInfo) (i : nat)
    (attrs log : list Attributes) :
  Forall (spec.allowedBy answer) (take i attrs) →
  filters.authorizeEach handler (spec.recording answer) req u attrs log
  = filters.authorizeEach handler (spec.recording answer) req u (drop i attrs)
      (log ++ take i attrs).
Proof.
  revert attrs log. induction i as [|i IH]; intros attrs log Hallowed.
  { simpl. by rewrite app_nil_r. }
  destruct attrs as [|a attrs]; [simpl; by rewrite app_nil_r|].
  simpl in Hallowed. apply Forall_cons in Hallowed as [[Hdec Herr] Hallowed].
  simpl. unfold M_bind, spec.recording at 1.
  destruct (answer a) as [[dec reason] err]. simpl in Hdec, Herr. subst dec err.
  case_decide; [done|].
  by rewrite (IH attrs (log ++ [a]) Hallowed), <- app_assoc.
Qed.

(** X6.  The authorization filter answers 401 when the context holds no
    user and 400 when the request stands for no attribute set, in both cases
    without asking the authorizer.  Otherwise it asks the authorizer about
    the attribute sets in order: when every set is allowed the request is
    handed to the next handler; at the first set that is not, it answers 500
    if the authorizer reported an error and 403 if not, asks about no later
    set and does not call the next handler.  When computing the attribute
    sets panics, the filter panics with the same value, without asking the
    authorizer and without calling the next handler.  One of these cases
    always applies. *)
Theorem WithAuthorization_outcomes (handler : filters.Handler (list Attributes))
    (answer : Attributes → Result) (cfg : authz_config.Config) (req : filters.ServedRequest)
    (log : list Attributes) :
  let served := filters.WithAuthorization handler (spec.recording answer) cfg req log in
  (filters.ctx_user (filters.context req) = None →
     served = (Returned (filters.http_Error "user not in context" 401), log)) ∧
  (∀ u attrs,
     filters.ctx_user (filters.context req) = Some u →
     authz_config.GetRequestAttributes cfg (Some u) (filters.request req) = Returned attrs →
     (attrs = [] →
        served
        = (Returned (filters.http_Error
                       "Bad Request. The request or configuration is malformed." 400),
           log)) ∧
     (Forall (spec.allowedBy answer) attrs ∨ ∃ i a, spec.firstRefused answer attrs i a) ∧
     (attrs ≠ [] → Forall (spec.allowedBy answer) attrs →
        served = handler req (log ++ attrs)) ∧
     (∀ i a, spec.firstRefused answer attrs i a →
        served = (Returned (more.refusalResponse u a (answer a)), log ++ take (S i) attrs))) ∧
  (∀ u v,
     filters.ctx_user (filters.context req) = Some u →
     authz_config.GetRequestAttributes cfg (Some u) (filters.request req) = Panicked v →
     served = (Panicked v, log)) ∧
  (filters.ctx_user (filters.context req) = None ∨
   ∃ u, filters.ctx_user (filters.context req) = Some u ∧
        ((∃ attrs, authz_config.GetRequestAttributes cfg (Some u) (filters.request req)
                   = Returned attrs ∧
                   (attrs = [] ∨
                    attrs ≠ [] ∧ Forall (spec.allowedBy answer) attrs ∨
                    ∃ i a, spec.firstRefused answer attrs i a)) ∨
         (∃ v, authz_config.GetRequestAttributes cfg (Some u) (filters.request req)
               = Panicked v))).
Proof.
  intros served. split_and!.
  - intros Hnone. unfold served, filters.WithAuthorization. by rewrite Hnone.
  - intros u attrs Hu Hattrs.
    assert (attrs ≠ [] →
            served = filters.authorizeEach handler (spec.recording answer) req u attrs log)
      as Hloop.
    { intros Hne. unfold served, filters.WithAuthorization, M_bind, M_lift.
      rewrite Hu, Hattrs. case_decide as Hlen; [by apply nil_length_inv in Hlen | done]. }
    split_and!.
    + intros ->. unfold served, filters.WithAuthorization, M_bind, M_lift.
      by rewrite Hu, Hattrs.
    + apply attrs_decided.
    + intros Hne Hall. rewrite (Hloop Hne).
      rewrite (filter_authorizeEach_skip _ _ _ _ (length attrs)); rewrite firstn_all; [|done].
      by rewrite drop_all.
    + intros i a (Hi & Hrefused & Hallowed).
      rewrite Hloop by (intros ->; done).
      rewrite (filter_authorizeEach_skip _ _ _ _ i _ _ Hallowed).
      rewrite (drop_S attrs a i Hi), (take_S_r attrs i a Hi), app_assoc.
      simpl. unfold M_bind, spec.recording at 1, more.refusalResponse.
      unfold spec.allowedBy in Hrefused.
      destruct (answer a) as [[dec reason] [e|]]; simpl in *; [done|].
      case_decide as Hdec; [done|]. destruct Hrefused. split; [|done].
      by destruct (decide (dec = DecisionAllow)).
  - intros u v Hu Hpanic. unfold served, filters.WithAuthorization, M_bind, M_lift.
    by rewrite Hu, Hpanic.
  - destruct (filters.ctx_user (filters.context req)) as [u|]; [|by left].
    right. exists u. split; [done|].
    destruct (authz_config.GetRequestAttributes cfg (Some u) (filters.request req))
      as [attrs|v]; [|right; by exists v].
    left. exists attrs. split; [done|].
    destruct attrs as [|a0 attrs0]; [by left|]. right.
    destruct (attrs_decided answer (a0 :: attrs0)) as [Hall|Hfirst]; [by left | by right].
Qed.

End authorization_filter.

(** ** The path filters *)

Section path_filters.
Context `{PathMatch} {St : Type}.

Lemma allowEach_skip (handler : filters.Handler St) (paths : list string)
    (req : filters.ServedRequest) (i : nat) :
  Forall (λ g, path_Match g (URL_Path (filters.request req)) = (false, None)) (take i paths) →
  filters.allowEach handler paths req = filters.allowEach handler (drop i paths) req.
Proof.
  revert paths. induction i as [|i IH]; intros paths Hskip; [done|].
  destruct paths as [|g paths]; [done|].
  simpl in Hskip. apply Forall_cons in Hskip as [Hg Hskip].
  simpl. rewrite Hg. by apply IH.
Qed.

Lemma ignoreEach_skip (ignored handler : filters.Handler St) (paths : list string)
    (req : filters.ServedRequest) (i : nat) :
  Forall (λ g, path_Match g (URL_Path (filters.request req)) = (false, None)) (take i paths) →
  filters.ignoreEach ignored handler paths req
  = filters.ignoreEach ignored handler (drop i paths) req.
Proof.
  revert paths. induction i as [|i IH]; intros paths Hskip; [done|].
  destruct paths as [|g paths]; [done|].
  simpl in Hskip. apply Forall_cons in Hskip as [Hg Hskip].
  simpl. rewrite Hg. by apply IH.
Qed.

(** X7.  With an empty list each path filter is the next handler itself.
    With a non-empty list the entries are tried in order as patterns on the
    path of the request as it is: when every entry is a plain mismatch the
    allow filter answers 404 and the ignore filter calls the next handler;
    when the first decisive entry matches, the allow filter calls the next
    handler and the ignore filter the handler for ignored paths; when it is
    malformed both answer 500.  One of the three cases always applies. *)
Theorem path_filters_outcomes (ignored handler : filters.Handler St) (paths : list string)
    (req : filters.ServedRequest) (s : St) :
  let url := URL_Path (filters.request req) in
  filters.WithAllowPaths handler [] = handler ∧
  filters.WithIgnorePaths ignored handler [] = handler ∧
  (paths ≠ [] →
     (Forall (λ g, path_Match g url = (false, None)) paths ∨
      ∃ i g, spec.firstDecisive paths url i g ∧ path_Match g url ≠ (false, None)) ∧
     (Forall (λ g, path_Match g url = (false, None)) paths →
        filters.WithAllowPaths handler paths req s = (Returned filters.http_NotFound, s) ∧
        filters.WithIgnorePaths ignored handler paths req s = handler req s) ∧
     (∀ i g, spec.firstDecisive paths url i g →
        (path_Match g url = (true, None) →
           filters.WithAllowPaths handler paths req s = handler req s ∧
           filters.WithIgnorePaths ignored handler paths req s = ignored req s) ∧
        (∀ found e, path_Match g url = (found, Some e) →
           filters.WithAllowPaths handler paths req s
           = (Returned (filters.http_Error "Internal Server Error" 500), s) ∧
           filters.WithIgnorePaths ignored handler paths req s
           = (Returned (filters.http_Error "Internal Server Error" 500), s)))).
Proof.
  intros url. split_and!; [done | done |].
  intros Hne.
  assert (filters.WithAllowPaths handler paths = λ req, filters.allowEach handler paths req)
    as ->.
  { unfold filters.WithAllowPaths. by destruct paths. }
  assert (filters.WithIgnorePaths ignored handler paths
          = λ req, filters.ignoreEach ignored handler paths req) as ->.
  { unfold filters.WithIgnorePaths. by destruct paths. }
  split_and!.
  - apply globs_decided.
  - intros Hall.
    rewrite (allowEach_skip handler paths req (length paths)),
      (ignoreEach_skip ignored handler paths req (length paths));
      rewrite ?firstn_all, ?drop_all; done.
  - intros i g [Hi Hskip].
    rewrite (allowEach_skip handler paths req i Hskip),
      (ignoreEach_skip ignored handler paths req i Hskip), (drop_S paths g i Hi).
    simpl. fold url. split; [intros -> | intros found e ->]; done.
Qed.

End path_filters.

(** ** The authentication filters *)

Section authentication_filters.
Context `{MIMEHeaderKey} `{!TemplateEngine html_template} {St : Type}.

Lemma WithAuthentication_audiences (handler : filters.Handler St)
    (authReq : filters.Authenticator) (audiences : list string) (req : filters.ServedRequest) :
  filters.WithAuthentication handler authReq audiences req
  = filters.WithAuthentication handler authReq [] (more.withAudiences audiences req).
Proof.
  unfold filters.WithAuthentication, more.withAudiences.
  destruct audiences as [|audience audiences]; [done|].
  rewrite bool_decide_true by (simpl; lia). rewrite bool_decide_false by (simpl; lia). done.
Qed.

(** X8.  The authentication filter hands the authenticator the request with
    the audiences in its context.  It answers 401 when the authenticator
    reports an error or does not authenticate, and otherwise calls the next
    handler on that request with the authenticated user in its context.
    Followed by the authorization filter for a configuration without resource
    attributes, the authorizer is asked exactly once, about the user, the verb
    of the method and the path: the chain answers 500 when the authorizer
    reports an error, 403 when its decision is not Allow, and calls the next
    handler when it is Allow; an authenticated request without a user is
    answered 401. *)
Theorem authentication_then_authorization (handler : filters.Handler St)
    (authz : Authorizer St) (cfg : authz_config.Config) (authReq : filters.Authenticator)
    (audiences : list string) (req : filters.ServedRequest) (s : St) :
  let req1 := more.withAudiences audiences req in
  let chain :=
    filters.WithAuthentication (filters.WithAuthorization handler authz cfg)
      authReq audiences in
  (∀ res ok e, authReq req1 = (res, ok, Some e) →
     chain req s = (Returned (filters.http_Error "Unauthorized" 401), s)) ∧
  (∀ res, authReq req1 = (res, false, None) →
     chain req s = (Returned (filters.http_Error "Unauthorized" 401), s)) ∧
  (∀ (next : filters.Handler St) res, authReq req1 = (Some res, true, None) →
     filters.WithAuthentication next authReq audiences req s
     = next (more.withUser (filters.Response_User res) req1) s) ∧
  (∀ res, authReq req1 = (Some res, true, None) → filters.Response_User res = None →
     chain req s = (Returned (filters.http_Error "user not in context" 401), s)) ∧
  (∀ res u decision reason err s',
     authReq req1 = (Some res, true, None) → filters.Response_User res = Some u →
     authz_config.Cfg_ResourceAttributes cfg = None →
     authz (filters.ctx_values (filters.context req))
       (more.requestAttributes (Some u) (filters.request req)) s
     = (Returned (decision, reason, err), s') →
     chain req s
     = match err with
       | Some _ =>
           (Returned (more.refusalResponse u
                        (more.requestAttributes (Some u) (filters.request req))
                        (decision, reason, err)), s')
       | None =>
           if decide (decision = DecisionAllow)
           then handler (more.withUser (Some u) req1) s'
           else (Returned (more.refusalResponse u
                             (more.requestAttributes (Some u) (filters.request req))
                             (decision, reason, err)), s')
       end).
Proof.
  intros req1 chain.
  assert (∀ next : filters.Handler St, filters.WithAuthentication next authReq audiences req
                  = filters.WithAuthentication next authReq [] req1) as Hreq1.
  { intros next. apply WithAuthentication_audiences. }
  assert (filters.request req1 = filters.request req ∧
          filters.ctx_values (filters.context req1) = filters.ctx_values (filters.context req))
    as [Hrequest Hvalues].
  { unfold req1, more.withAudiences. by destruct audiences. }
  assert (∀ (next : filters.Handler St) res, authReq req1 = (Some res, true, None) →
            filters.WithAuthentication next authReq audiences req s
            = next (more.withUser (filters.Response_User res) req1) s) as Hnext.
  { intros next res Hres. rewrite Hreq1. unfold filters.WithAuthentication. simpl.
    by rewrite Hres. }
  split_and!.
  - intros res ok e Hres. unfold chain. rewrite Hreq1. unfold filters.WithAuthentication.
    simpl. by rewrite Hres.
  - intros res Hres. unfold chain. rewrite Hreq1. unfold filters.WithAuthentication.
    simpl. by rewrite Hres.
  - exact Hnext.
  - intros res Hres Huser. unfold chain. rewrite (Hnext _ res Hres), Huser.
    reflexivity.
  - intros res u decision reason err s' Hres Huser Hcfg Hauthz.
    unfold chain. rewrite (Hnext _ res Hres), Huser.
    unfold filters.WithAuthorization, authz_config.GetRequestAttributes, M_bind, M_lift.
    simpl. rewrite Hcfg. simpl. unfold M_bind.
    rewrite Hrequest, Hvalues. fold (more.requestAttributes (Some u) (filters.request req)).
    rewrite Hauthz. unfold more.refusalResponse.
    destruct err as [e|]; [done|]. simpl.
    destruct (decide (decision = DecisionAllow)) as [->|Hno]; by repeat case_decide.
Qed.

(** X9.  The header filter, when it is disabled, is the next handler itself;
    when the context holds no user it passes the request on unchanged;
    otherwise it passes on the same request and context with, under the
    canonical key of the groups field, the groups joined by the separator and
    nothing else, under the canonical key of the user field (if it is another
    key) the name of the user and nothing else, and every other header as it
    was: values that the client sent under the two keys do not reach the next
    handler. *)
Theorem WithAuthHeaders_replaces_identity_headers (handler : filters.Handler St)
    (cfg : filters.AuthnHeaderConfig) (req : filters.ServedRequest) (s : St) :
  (filters.Enabled cfg = false → filters.WithAuthHeaders handler cfg = handler) ∧
  (filters.ctx_user (filters.context req) = None →
     filters.WithAuthHeaders handler cfg req s = handler req s) ∧
  (∀ u, filters.Enabled cfg = true → filters.ctx_user (filters.context req) = Some u →
     ∃ req',
       filters.WithAuthHeaders handler cfg req s = handler req' s ∧
       filters.context req' = filters.context req ∧
       Method (filters.request req') = Method (filters.request req) ∧
       URL_Path (filters.request req') = URL_Path (filters.request req) ∧
       URL_Query (filters.request req') = URL_Query (filters.request req) ∧
       Header (filters.request req') !! CanonicalMIMEHeaderKey (filters.GroupsFieldName cfg)
       = Some [Join (Groups u) (filters.GroupSeparator cfg)] ∧
       (CanonicalMIMEHeaderKey (filters.UserFieldName cfg)
        ≠ CanonicalMIMEHeaderKey (filters.GroupsFieldName cfg) →
        Header (filters.request req') !! CanonicalMIMEHeaderKey (filters.UserFieldName cfg)
        = Some [UserName u]) ∧
       (∀ key, key ≠ CanonicalMIMEHeaderKey (filters.UserFieldName cfg) →
               key ≠ CanonicalMIMEHeaderKey (filters.GroupsFieldName cfg) →
               Header (filters.request req') !! key = Header (filters.request req) !! key)).
Proof.
  unfold filters.WithAuthHeaders. split_and!.
  - by intros ->.
  - intros Hnone. destruct (filters.Enabled cfg); simpl; [by rewrite Hnone | done].
  - intros u -> Hu. simpl. rewrite Hu. eexists. split; [reflexivity|]. simpl.
    unfold Header_Set. split_and!; try done.
    + by rewrite lookup_insert_eq.
    + intros Hkeys. by rewrite lookup_insert_ne, lookup_insert_eq.
    + intros key Huser Hgroups. by rewrite !lookup_insert_ne.
Qed.

End authentication_filters.

(** ** The parameters in the context *)

Section context_parameters.
Context `{MIMEHeaderKey}.

(** X10.  The handler of middleware.go always replaces the parameters of the
    context by those extracted from the request, so the generator reads
    exactly what the extractor found.  The handler of config.go replaces them
    only when some value was extracted: for a request without values the
    generator reads the parameters the incoming context already held. *)
Theorem handlers_hand_parameters_to_generator (config : option RewriteAttributesConfig)
    (req : Request) (ctx : Context) (params : list string) :
  rewrite.GetKubeRBACProxyParams (rewrite.WithKubeRBACProxyParams ctx params) = params ∧
  rewrite.GetKubeRBACProxyParams (rewrite.WithKubeRBACProxyParamsHandler config req ctx)
  = rewrite.requestToParams config req ∧
  rewrite_config.GetKubeRBACProxyParams
    (rewrite_config.WithKubeRBACProxyParamsHandler config req ctx)
  = (if decide (rewrite.requestToParams config req = [])
     then rewrite.GetKubeRBACProxyParams ctx
     else rewrite.requestToParams config req) ∧
  (ctx_rewriterParams ctx = None →
   rewrite_config.GetKubeRBACProxyParams
     (rewrite_config.WithKubeRBACProxyParamsHandler config req ctx)
   = rewrite.requestToParams config req).
Proof.
  assert (rewrite_config.GetKubeRBACProxyParams
            (rewrite_config.WithKubeRBACProxyParamsHandler config req ctx)
          = (if decide (rewrite.requestToParams config req = [])
             then rewrite.GetKubeRBACProxyParams ctx
             else rewrite.requestToParams config req)) as Hconfig.
  { unfold rewrite_config.WithKubeRBACProxyParamsHandler.
    change (rewrite_config.requestToParams config req)
      with (rewrite.requestToParams config req).
    destruct (rewrite.requestToParams config req) as [|param rest]; simpl; done. }
  split_and!; [done | done | exact Hconfig |].
  intros Hfresh. rewrite Hconfig. case_decide as Hempty; [|done].
  unfold rewrite.GetKubeRBACProxyParams. by rewrite Hfresh, Hempty.
Qed.

End context_parameters.

(** ** More on the path authorizers *)

Section path_authorizers.
Context `{PathMatch}.

(** X11.  An allow-list alone never grants access and an ignore-list alone
    never denies it: the allow-list authorizer never returns Allow, the
    ignore-list authorizer never returns Deny, and either returns an error
    only together with NoOpinion. *)
Theorem path_authorizers_never_decide_the_other_way (inputPaths : list string)
    (attr : Attributes) :
  (path.NewAllowPathAuthorizer inputPaths attr).1.1 ≠ DecisionAllow ∧
  (path.NewAlwaysAllowPathAuthorizer inputPaths attr).1.1 ≠ DecisionDeny ∧
  (is_Some (path.NewAllowPathAuthorizer inputPaths attr).2 →
   (path.NewAllowPathAuthorizer inputPaths attr).1.1 = DecisionNoOpinion) ∧
  (is_Some (path.NewAlwaysAllowPathAuthorizer inputPaths attr).2 →
   (path.NewAlwaysAllowPathAuthorizer inputPaths attr).1.1 = DecisionNoOpinion).
Proof.
  destruct (pathVerdict_total inputPaths (Path attr)) as [v Hv].
  unfold path.NewAlwaysAllowPathAuthorizer, path.NewAllowPathAuthorizer.
  rewrite (pathAuthorizer_Authorize_verdict _ _ _ _ v Hv).
  case_decide as Hlen.
  - destruct v; split_and!; simpl; try done; by intros [? ?].
  - rewrite (pathAuthorizer_Authorize_verdict _ _ _ _ v Hv).
    destruct v; split_and!; simpl; try done; by intros [? ?].
Qed.

(** X12.  An entry without a star stands for exactly one path, with or
    without its leading slash: whatever the other entries are, malformed
    patterns included, a request for that path is a match, answered Allow by
    the ignore-list authorizer and NoOpinion by the allow-list authorizer. *)
Theorem exact_entry_always_matches (inputPaths : list string) (entry : string)
    (attr : Attributes) :
  entry ∈ inputPaths →
  ContainsStar (TrimPrefixSlash entry) = false →
  TrimPrefixSlash (Path attr) = TrimPrefixSlash entry →
  path.NewAlwaysAllowPathAuthorizer inputPaths attr = (DecisionAllow, "", None) ∧
  path.NewAllowPathAuthorizer inputPaths attr = (DecisionNoOpinion, "", None).
Proof.
  intros Hentry Hexact Hpath.
  assert (spec.pathVerdict inputPaths (Path attr) spec.PathMatched) as Hv.
  { left. rewrite Hpath. unfold spec.exactEntries.
    apply list_elem_of_filter. split; [done | by apply list_elem_of_fmap_2]. }
  unfold path.NewAlwaysAllowPathAuthorizer, path.NewAllowPathAuthorizer.
  rewrite (pathAuthorizer_Authorize_verdict _ _ _ _ _ Hv).
  split; [done|]. case_decide as Hlen.
  - apply nil_length_inv in Hlen. subst inputPaths. by apply elem_of_nil in Hentry.
  - by rewrite (pathAuthorizer_Authorize_verdict _ _ _ _ _ Hv).
Qed.

End path_authorizers.

(** ** More on the static authorizer *)

(** X13.  Static rules are grants that only add up: a request the rules
    allow stays allowed when rules are added before or after them, and the
    answer of the static authorizer does not depend on the order of the
    rules. *)
Theorem static_rules_are_additive (rules added rules' : list authz.StaticAuthorizationConfig)
    (a : Attributes) :
  (authz.Authorize rules a = (DecisionAllow, "found corresponding static auth config", None) →
     authz.Authorize (rules ++ added) a = authz.Authorize rules a ∧
     authz.Authorize (added ++ rules) a = authz.Authorize rules a) ∧
  (rules ≡ₚ rules' → authz.Authorize rules a = authz.Authorize rules' a).
Proof.
  assert (∀ l, Exists (λ r, spec.ruleMatches r a) l →
               authz.Authorize l a
               = (DecisionAllow, "found corresponding static auth config", None)) as Hallow.
  { intros l Hex. destruct (static_Authorize_cases l a) as [[-> _]|[_ Hall]]; [done|].
    by apply Forall_Exists_neg in Hall. }
  assert (∀ l, authz.Authorize l a
               = (DecisionAllow, "found corresponding static auth config", None) →
               Exists (λ r, spec.ruleMatches r a) l) as Hex.
  { intros l Hl. destruct (static_Authorize_cases l a) as [[_ Hex]|[Hno _]]; [done|].
    rewrite Hl in Hno. discriminate Hno. }
  split.
  - intros Hrules. rewrite Hrules.
    split; apply Hallow, Exists_app; [left | right]; by apply Hex.
  - intros Hperm.
    destruct (static_Authorize_cases rules a) as [[-> Hsome]|[-> Hnone]].
    + symmetry. apply Hallow. by rewrite <- Hperm.
    + destruct (static_Authorize_cases rules' a) as [[_ Hsome']|[-> _]]; [|done].
      rewrite <- Hperm in Hsome'. by apply Forall_Exists_neg in Hnone.
Qed.

(** X14.  For rules that [NewStaticAuthorizer] accepted, a request for a
    path (not a resource request) is allowed only on a path that some rule
    names literally, the path never being a wildcard for such requests; and a
    resource request is allowed only by a rule for resource requests, which
    names no path. *)
Theorem accepted_static_rules_allow_listed_paths_only
    (rules sa : list authz.StaticAuthorizationConfig) (a : Attributes) :
  authz.NewStaticAuthorizer rules = inl sa →
  authz.Authorize sa a = (DecisionAllow, "found corresponding static auth config", None) →
  ∃ r, r ∈ rules ∧ spec.ruleMatches r a ∧
       (ResourceRequest a = false → authz.Static_Path r = Path a ∧ Path a ≠ "") ∧
       (ResourceRequest a = true → authz.Static_Path r = "").
Proof.
  unfold authz.NewStaticAuthorizer.
  destruct (authz.firstInvalid rules) eqn:Hvalid; [done|]. intros [= <-] Hallow.
  assert (Forall spec.ruleWellFormed rules) as Hwf.
  { apply Forall_forall. intros r Hr.
    destruct (decide (spec.ruleWellFormed r)) as [|Hbad]; [done|].
    assert (authz.firstInvalid rules = true) as Hinvalid.
    { apply firstInvalid_true_iff, Exists_exists. eauto. }
    by rewrite Hvalid in Hinvalid. }
  destruct (static_Authorize_cases rules a) as [[_ Hsome]|[Hno _]];
    [|rewrite Hallow in Hno; discriminate Hno].
  apply Exists_exists in Hsome as (r & Hr & Hmatch).
  exists r. split_and!; [done | done | |].
  - intros Hpath.
    rewrite Forall_forall in Hwf. specialize (Hwf r Hr). unfold spec.ruleWellFormed in Hwf.
    destruct Hmatch as (_ & _ & _ & _ & _ & _ & _ & Hfield & Hrequest).
    rewrite Hrequest, Hpath in Hwf. symmetry in Hwf. apply bool_decide_eq_false in Hwf.
    split; [by apply Hfield | rewrite <- (Hfield Hwf); done].
  - intros Hresource.
    rewrite Forall_forall in Hwf. specialize (Hwf r Hr). unfold spec.ruleWellFormed in Hwf.
    destruct Hmatch as (_ & _ & _ & _ & _ & _ & _ & _ & Hrequest).
    rewrite Hrequest, Hresource in Hwf. symmetry in Hwf. by apply bool_decide_eq_true in Hwf.
Qed.

(** ** More on the composition roots *)

Section roots.
Context `{PathMatch} `{!TemplateEngine text_template} {St : Type}.

Lemma NewStaticAuthorizer_ill_formed (rules : list authz.StaticAuthorizationConfig) :
  (∃ r, r ∈ rules ∧ ¬ spec.ruleWellFormed r) →
  authz.NewStaticAuthorizer rules
  = inr (errorString
           ("invalid configuration: resource requests must not include a path: " +:+
            authz.Sprint_config rules)).
Proof.
  intros Hbad. unfold authz.NewStaticAuthorizer.
  apply Exists_exists, firstInvalid_true_iff in Hbad. by rewrite Hbad.
Qed.

Lemma pathSwitch_both (authz : list (Authorizer St)) (allowPaths ignorePaths : list string) :
  allowPaths ≠ [] → ignorePaths ≠ [] →
  authorization.pathSwitch authz allowPaths ignorePaths
  = inr (errorString "allow and ignore paths cannot be used together").
Proof.
  intros Hallow Hignore. unfold authorization.pathSwitch.
  destruct allowPaths, ignorePaths; try done.
Qed.

(** The static rules of a configuration are all well-formed, or one of them
    is not. *)
Lemma static_rules_accepted_or_not (c : authorization.AuthzConfig) :
  (∀ rules r, authorization.Static c = Some rules → r ∈ rules → spec.ruleWellFormed r) ∨
  (∃ rules r, authorization.Static c = Some rules ∧ r ∈ rules ∧ ¬ spec.ruleWellFormed r).
Proof.
  destruct (authorization.Static c) as [rules|]; [|by left].
  destruct (authz.firstInvalid rules) eqn:Hinvalid.
  - right. apply firstInvalid_true_iff, Exists_exists in Hinvalid as (r & Hr & Hbad).
    by exists rules, r.
  - left. intros rules' r [= <-] Hr.
    destruct (decide (spec.ruleWellFormed r)) as [|Hbad]; [done|].
    assert (authz.firstInvalid rules = true) as Htrue.
    { apply firstInvalid_true_iff, Exists_exists. eauto. }
    by rewrite Hinvalid in Htrue.
Qed.

(** X15.  [SetupAuthorizer] fails in this order: with both path lists it
    returns the error that they cannot be used together, whatever the rest of
    its arguments; otherwise, with a nil configuration, it panics on the nil
    pointer; otherwise, with an ill-formed static rule, it returns the error of
    the static authorizer, which ends with the printed rule list, wrapped;
    otherwise, with a nil delegate, it panics on the nil pointer; otherwise,
    without the rewrite part of the configuration, it panics on the nil
    pointer.  It returns an authorizer in every other case, and only then. *)
Theorem SetupAuthorizer_failures (config : option authorization.AuthzConfig)
    (allowPaths ignorePaths : list string)
    (delegate : option (authorization.AuthorizationInfo St)) :
  let setup := authorization.SetupAuthorizer config allowPaths ignorePaths delegate in
  let onePathList := allowPaths = [] ∨ ignorePaths = [] in
  let accepted (c : authorization.AuthzConfig) :=
    ∀ rules r, authorization.Static c = Some rules → r ∈ rules → spec.ruleWellFormed r in
  (allowPaths ≠ [] ∧ ignorePaths ≠ [] →
     setup = Returned (inr (errorString "allow and ignore paths cannot be used together"))) ∧
  (onePathList → config = None → setup = Panicked nilDereference) ∧
  (∀ c rules, onePathList → config = Some c → authorization.Static c = Some rules →
     (∃ r, r ∈ rules ∧ ¬ spec.ruleWellFormed r) →
     setup = Returned (inr (wrapError "failed to create static authorizer"
       (errorString
          ("invalid configuration: resource requests must not include a path: " +:+
           authz.Sprint_config rules))))) ∧
  (∀ c, onePathList → config = Some c → accepted c → delegate = None →
     setup = Panicked nilDereference) ∧
  (∀ c, onePathList → config = Some c → accepted c → is_Some delegate →
     authorization.Embedded_RewriteAttributesConfig c = None →
     setup = Panicked nilDereference) ∧
  ((∃ authz, setup = Returned (inl authz))
     ↔ onePathList ∧
       ∃ c, config = Some c ∧ accepted c ∧ is_Some delegate ∧
            is_Some (authorization.Embedded_RewriteAttributesConfig c)).
Proof.
  intros setup onePathList accepted.
  assert (allowPaths ≠ [] ∧ ignorePaths ≠ [] →
          setup = Returned (inr (errorString "allow and ignore paths cannot be used together")))
    as Hboth.
  { intros [Hallow Hignore]. unfold setup, authorization.SetupAuthorizer.
    by rewrite pathSwitch_both. }
  assert (onePathList → config = None → setup = Panicked nilDereference) as Hconfig.
  { intros Hpaths ->. unfold setup, authorization.SetupAuthorizer.
    by rewrite (pathSwitch_strategy _ _ Hpaths). }
  assert (∀ c rules, onePathList → config = Some c → authorization.Static c = Some rules →
     (∃ r, r ∈ rules ∧ ¬ spec.ruleWellFormed r) →
     setup = Returned (inr (wrapError "failed to create static authorizer"
       (errorString
          ("invalid configuration: resource requests must not include a path: " +:+
           authz.Sprint_config rules))))) as Hstatic.
  { intros c rules Hpaths -> Hrules Hbad.
    unfold setup, authorization.SetupAuthorizer.
    rewrite (pathSwitch_strategy _ _ Hpaths). unfold authorization.staticStep.
    by rewrite Hrules, (NewStaticAuthorizer_ill_formed rules Hbad). }
  assert (∀ c, onePathList → config = Some c → accepted c →
          setup = match delegate with
                  | None => Panicked nilDereference
                  | Some d =>
                      Outcome_bind (authorization.generatorSwitch c)
                        (λ attrsGenerator, Returned (inl
                           (rewrite.NewDelegateAuthorizer
                              (union_New
                                 (spec.strategies allowPaths ignorePaths
                                    (authorization.Static c)
                                    (authorization.AuthorizationInfo_Authorizer d)))
                              attrsGenerator)))
                  end) as Hgenerator.
  { intros c Hpaths -> Hwf. unfold setup, authorization.SetupAuthorizer, spec.strategies.
    rewrite (pathSwitch_strategy _ _ Hpaths).
    unfold authorization.staticStep, spec.staticStrategy.
    destruct (authorization.Static c) as [rules|] eqn:Hrules; [|done].
    rewrite (NewStaticAuthorizer_well_formed rules); [|by eauto].
    destruct delegate; [by rewrite <- app_assoc | done]. }
  split_and!; [exact Hboth | exact Hconfig | exact Hstatic | | |].
  - intros c Hpaths Hc Hwf ->. by rewrite (Hgenerator c Hpaths Hc Hwf).
  - intros c Hpaths Hc Hwf [d ->] Hnil. rewrite (Hgenerator c Hpaths Hc Hwf).
    unfold authorization.generatorSwitch. by rewrite Hnil.
  - split.
    + intros [authz Hreturned].
      destruct (decide (allowPaths ≠ [] ∧ ignorePaths ≠ [])) as [Hb|Hpaths].
      { rewrite (Hboth Hb) in Hreturned. discriminate Hreturned. }
      assert (onePathList) as Hone.
      { unfold onePathList. destruct allowPaths, ignorePaths; try (by left); try (by right). }
      split; [done|].
      destruct config as [c|]; [|rewrite (Hconfig Hone eq_refl) in Hreturned; discriminate].
      exists c. split; [done|].
      destruct (static_rules_accepted_or_not c) as [Hwf | (rules & r & Hrules & Hr & Hbad)].
      2: { rewrite (Hstatic c rules Hone eq_refl Hrules) in Hreturned; [discriminate | eauto]. }
      split; [done|].
      rewrite (Hgenerator c Hone eq_refl Hwf) in Hreturned.
      destruct delegate as [d|]; [|discriminate Hreturned].
      split; [done|].
      destruct (authorization.Embedded_RewriteAttributesConfig c) as [rc|] eqn:Hrc; [done|].
      unfold authorization.generatorSwitch in Hreturned. rewrite Hrc in Hreturned.
      discriminate Hreturned.
    + intros (Hone & c & Hc & Hwf & [d ->] & [rc Hrc]). rewrite (Hgenerator c Hone Hc Hwf).
      rewrite (generatorSwitch_selects _ _ Hrc). simpl. eauto.
Qed.

Lemma rewriteEach_reads_user_and_verb (attributes : ResourceAttributes)
    (attr attr' : Attributes) (params : list string) (attrs : list Attributes) :
  User attr = User attr' → Verb attr = Verb attr' →
  rewrite.rewriteEach attributes attr params attrs
  = rewrite.rewriteEach attributes attr' params attrs.
Proof.
  intros Huser Hverb. revert attrs.
  induction params as [|param params IH]; intros attrs; [done|].
  simpl. unfold rewrite.rewritten. rewrite Huser, Hverb.
  match goal with |- Outcome_bind ?o _ = Outcome_bind ?o _ => destruct o; [|done] end.
  apply IH.
Qed.

(** X16.  When resource attributes are configured, the authorizer that
    [SetupAuthorizer] returns reads nothing of the original attributes but the
    user and the verb: two requests of the same user with the same verb get
    the same answer, whatever their paths, so the path lists given to
    [SetupAuthorizer] cannot tell them apart. *)
Theorem SetupAuthorizer_with_resource_attributes_ignores_the_path
    (config : option authorization.AuthzConfig) (rc : RewriteAttributesConfig)
    (allowPaths ignorePaths : list string)
    (delegate : option (authorization.AuthorizationInfo St))
    (authz : Authorizer St) (ctx : Context) (attr attr' : Attributes) (s : St) :
  config ≫= authorization.Embedded_RewriteAttributesConfig = Some rc →
  is_Some (Config_ResourceAttributes rc) →
  authorization.SetupAuthorizer config allowPaths ignorePaths delegate
  = Returned (inl authz) →
  User attr = User attr' → Verb attr = Verb attr' →
  authz ctx attr s = authz ctx attr' s.
Proof.
  intros Hrc [ra Hra] Hsetup Huser Hverb.
  assert (∃ delegated, authz = rewrite.Authorize delegated (spec.selectGenerator rc))
    as [delegated ->].
  { unfold authorization.SetupAuthorizer in Hsetup.
    destruct (authorization.pathSwitch _ _ _) as [strategies|e]; [|discriminate Hsetup].
    destruct config as [c|]; [|discriminate Hsetup]. simpl in Hrc.
    destruct (authorization.staticStep _ _) as [strategies'|e]; [|discriminate Hsetup].
    destruct delegate as [d|]; [|discriminate Hsetup].
    rewrite (generatorSwitch_selects _ _ Hrc) in Hsetup. simpl in Hsetup.
    injection Hsetup as <-. eauto. }
  unfold rewrite.Authorize, spec.selectGenerator, M_bind, M_lift. rewrite Hra.
  destruct (Rewrites rc).
  - unfold rewrite.RewritingAttributesGenerator_Generate.
    by rewrite (rewriteEach_reads_user_and_verb ra attr attr').
  - unfold rewrite.BoundAttributesGenerator_Generate. by rewrite Huser, Hverb.
Qed.

(** X17.  The older root does not look at the two path lists together and
    fails only on an ill-formed static rule.  The authorizer it returns asks
    the ignore-list first, then the allow-list, about the path of the request
    itself: a request that matches the ignore-list is allowed, and a request
    that matches no entry of a non-empty allow-list, and of the ignore-list if
    there is one, is denied, in both cases without calling the delegate. *)
Theorem setupAuthorizer_asks_path_lists_first (krbInfo : authorization.KubeRBACProxyInfo)
    (delegatedAuthz : authorization.AuthorizationInfo St) :
  let rules := default [] (authorization.Static (authorization.Authorization krbInfo)) in
  ((∃ err, authorization.setupAuthorizer krbInfo delegatedAuthz = inr err)
     ↔ ∃ r, r ∈ rules ∧ ¬ spec.ruleWellFormed r) ∧
  (∀ authz ctx attr s,
     authorization.setupAuthorizer krbInfo delegatedAuthz = inl authz →
     (authorization.IgnorePaths krbInfo ≠ [] →
      spec.pathVerdict (authorization.IgnorePaths krbInfo) (Path attr) spec.PathMatched →
      authz ctx attr s = (Returned (DecisionAllow, "", None), s)) ∧
     (authorization.AllowPaths krbInfo ≠ [] →
      spec.pathVerdict (authorization.AllowPaths krbInfo) (Path attr) spec.PathNotMatched →
      authorization.IgnorePaths krbInfo = [] ∨
      spec.pathVerdict (authorization.IgnorePaths krbInfo) (Path attr) spec.PathNotMatched →
      authz ctx attr s = (Returned (DecisionDeny, "", None), s))).
Proof.
  intros rules. unfold authorization.setupAuthorizer. fold rules. split.
  - destruct (authz.NewStaticAuthorizer rules) as [sa|err] eqn:Hnew.
    + split; [by intros [? ?]|]. intros Hbad.
      rewrite (NewStaticAuthorizer_ill_formed rules Hbad) in Hnew. discriminate Hnew.
    + split; [|eauto]. intros _.
      unfold authz.NewStaticAuthorizer in Hnew.
      destruct (authz.firstInvalid rules) eqn:Hinvalid; [|discriminate Hnew].
      by apply firstInvalid_true_iff, Exists_exists in Hinvalid.
  - intros authz ctx attr s.
    destruct (authz.NewStaticAuthorizer rules) as [sa|err]; [|done].
    intros [= <-]. split.
    + intros Hignore Hmatched.
      rewrite bool_decide_true by (destruct (authorization.IgnorePaths krbInfo); simpl; [done|lia]).
      unfold union_New. simpl. unfold M_bind, pureAuthorizer, M_ret.
      unfold path.NewAlwaysAllowPathAuthorizer.
      by rewrite (pathAuthorizer_Authorize_verdict _ _ _ _ _ Hmatched).
    + intros Hallow Hnot Hignore.
      assert (path.NewAllowPathAuthorizer (authorization.AllowPaths krbInfo) attr
              = (DecisionDeny, "", None)) as Hdeny.
      { unfold path.NewAllowPathAuthorizer. case_decide as Hlen.
        - by apply nil_length_inv in Hlen.
        - by rewrite (pathAuthorizer_Authorize_verdict _ _ _ _ _ Hnot). }
      rewrite (bool_decide_true (0 < length (authorization.AllowPaths krbInfo)))
        by (destruct (authorization.AllowPaths krbInfo); simpl; [done|lia]).
      destruct Hignore as [Hnil | Hnot'].
      * rewrite Hnil. simpl.
        unfold union_New. simpl. unfold M_bind, pureAuthorizer, M_ret. by rewrite Hdeny.
      * destruct (authorization.IgnorePaths krbInfo) as [|p rest] eqn:Hlist.
        { simpl. unfold union_New. simpl. unfold M_bind, pureAuthorizer, M_ret.
          by rewrite Hdeny. }
        rewrite bool_decide_true by (simpl; lia).
        unfold union_New. simpl. unfold M_bind, pureAuthorizer, M_ret.
        unfold path.NewAlwaysAllowPathAuthorizer.
        rewrite (pathAuthorizer_Authorize_verdict _ _ _ _ _ Hnot'). simpl.
        unfold M_bind. by rewrite Hdeny.
Qed.

End roots.

(** * Examples

    The properties above at concrete inputs, with the stand-ins for the
    library functions. *)

Import examples.

(** The extractor hands the two query values to the context in the order
    of the request. *)
Lemma extractor_fills_context :
  rewrite.WithKubeRBACProxyParamsHandler (Some byNamespaceQuery) metricsOfTwoNamespaces noParams
  = twoNamespaces.
Proof. reflexivity. Qed.

(** The request of bob for the pods of [ns1] and [ns2], the delegate
    allowing [ns1] only: the delegate is asked about both sets, in order, and
    the denial names the second. *)
Lemma AND_combinator_denies_second_namespace :
  rewrite.RewritingAttributesGenerator_Generate (Some podsOfNamespace) twoNamespaces getMetrics
  = Returned [podsIn "ns1"; podsIn "ns2"] ∧
  rewrite.Authorize (spec.recording (allowsOnly "ns1"))
    (rewrite.RewritingAttributesGenerator_Generate (Some podsOfNamespace)) twoNamespaces getMetrics []
  = (Returned (DecisionDeny,
               "Forbidden (user=, verb=get, resource=pods, subresource=): not permitted", None),
     [podsIn "ns1"; podsIn "ns2"]).
Proof.
  split; [reflexivity|].
  refine (proj1 (proj2 (proj2
    (AND_combinator_stops_at_first_refusal (allowsOnly "ns1")
       (rewrite.RewritingAttributesGenerator_Generate (Some podsOfNamespace))
       twoNamespaces getMetrics [podsIn "ns1"; podsIn "ns2"] [] eq_refl)))
    1 (podsIn "ns2") _).
  split_and!; [reflexivity | by intros [? _] |].
  repeat constructor.
Defined.

(** C1, as stated, fails.  A generator that returns no attribute set, with a
    delegate that allows everything: every generated set is allowed, and the
    result is Deny.  And when the delegate fails on a set, the reason is
    "AuthorizationError": the coordinates of the set are in the error. *)
Lemma AND_combinator_denies_empty_sequence :
  rewrite.RewritingAttributesGenerator_Generate (Some podsOfNamespace) noParams getMetrics
  = Returned [] ∧
  Forall (spec.allowedBy allowsAll) [] ∧
  rewrite.Authorize (spec.recording allowsAll)
    (rewrite.RewritingAttributesGenerator_Generate (Some podsOfNamespace)) noParams getMetrics []
  = (Returned (DecisionDeny, "No attribute combination matched", None), []) ∧
  rewrite.Authorize (spec.recording fails)
    (rewrite.RewritingAttributesGenerator_Generate (Some podsOfNamespace)) twoNamespaces getMetrics []
  = (Returned (DecisionDeny, "AuthorizationError",
               Some (wrapError "authorization error (user=, verb=get, resource=pods, subresource=)"
                       (errorString "context deadline exceeded"))),
     [podsIn "ns1"]).
Proof. split_and!; [reflexivity | constructor | reflexivity | reflexivity]. Qed.

(** The failing input of C3: the rewriting generator on a request that
    carries no value. *)
Lemma delegateAuthorizer_no_params_nil_error :
  rewrite.RewritingAttributesGenerator_Generate (Some podsOfNamespace) noParams getMetrics
  = Returned [] ∧
  rewrite.Authorize (spec.recording deniesAll)
    (rewrite.RewritingAttributesGenerator_Generate (Some podsOfNamespace)) noParams getMetrics []
  = (Returned (DecisionDeny, "No attribute combination matched", None), []).
Proof.
  split; [reflexivity|].
  apply (delegateAuthorizer_zero_sets_nil_error (spec.recording deniesAll)
           (rewrite.RewritingAttributesGenerator_Generate (Some podsOfNamespace))
           noParams getMetrics []).
  reflexivity.
Defined.

(** C6, as stated, fails.  Under the allow-list constructor with an empty
    list no path matches and the answer is NoOpinion, not Deny; and with a
    malformed pattern the answer for a path that is no exact entry is
    NoOpinion with the error, not Deny. *)
Lemma allow_list_no_match_without_deny :
  spec.pathVerdict [] "/admin" spec.PathNotMatched ∧
  path.NewAllowPathAuthorizer [] {| User := Some bob; Verb := "get"; Namespace := "";
      APIGroup := ""; APIVersion := ""; Resource := ""; Subresource := ""; Name := "";
      ResourceRequest := false; Path := "/admin" |}
  = (DecisionNoOpinion, "", None) ∧
  path.NewAllowPathAuthorizer ["/api/[*"] {| User := Some bob; Verb := "get"; Namespace := "";
      APIGroup := ""; APIVersion := ""; Resource := ""; Subresource := ""; Name := "";
      ResourceRequest := false; Path := "/api/x" |}
  = (DecisionNoOpinion, "Error", Some (errorString "syntax error in pattern")).
Proof.
  split_and!; [| reflexivity | by vm_compute].
  split; [by intros ?%not_elem_of_nil | constructor].
Qed.







(** The path strategy inside the OR-combinator is asked about the generated
    attribute sets.  With a generator bound to a fixed resource the generated
    set has no path, so an ignore-list entry for the request path does not
    apply and the delegate decides; the older root, which puts the path
    strategy outside, allows the same request without asking the delegate. *)
Lemma path_strategy_is_asked_about_generated_sets :
  ∃ newRoot oldRoot,
    authorization.SetupAuthorizer (Some secretsOnly) [] ["/metrics"]
      (Some (recordingDelegate deniesAll))
    = Returned (inl newRoot) ∧
    authorization.setupAuthorizer
      {| authorization.Authorization := secretsOnly;
         authorization.AllowPaths := [];
         authorization.IgnorePaths := ["/metrics"] |}
      (recordingDelegate deniesAll)
    = inl oldRoot ∧
    newRoot noParams getMetrics []
    = (Returned (DecisionDeny,
                 "Forbidden (user=, verb=get, resource=secrets, subresource=): not permitted",
                 None),
       [secrets]) ∧
    oldRoot noParams getMetrics [] = (Returned (DecisionAllow, "", None), []).
Proof. do 2 eexists. split_and!; reflexivity. Qed.

(** With the default generator the generated set keeps the request path, and
    an ignore-list entry allows the request without reaching the delegate. *)
Lemma ignore_list_allows_without_delegate :
  ∃ root,
    authorization.SetupAuthorizer (Some pathsAndStatic) [] ["/metrics"]
      (Some (recordingDelegate deniesAll))
    = Returned (inl root) ∧
    root noParams getMetrics [] = (Returned (DecisionAllow, "", None), []).
Proof. eexists. split; reflexivity. Qed.

(** An ill-formed static rule is reported with the rule list as package fmt
    prints it. *)
Lemma SetupAuthorizer_reports_ill_formed_rule :
  authorization.SetupAuthorizer
    (Some {| authorization.Embedded_RewriteAttributesConfig := Some noRewrite;
             authorization.Static :=
               Some [podsRule;
                     {| authz.Static_User :=
                          {| authz.UserConfig_Name := "bob";
                             authz.UserConfig_Groups := ["dev"; "ops"] |};
                        authz.Static_Verb := "get"; authz.Static_Namespace := "";
                        authz.Static_APIGroup := ""; authz.Static_Resource := "";
                        authz.Static_Subresource := ""; authz.Static_Name := "";
                        authz.Static_ResourceRequest := true;
                        authz.Static_Path := "/metrics" |}] |})
    [] [] (Some (recordingDelegate allowsAll))
  = Returned (inr (wrapError "failed to create static authorizer"
      (errorString
         ("invalid configuration: resource requests must not include a path: " +:+
          "[{{ []} get   pods   true } {{bob [dev ops]} get      true /metrics}]")))).
Proof. reflexivity. Qed.

(** * Further examples *)

Import more_examples.

(** Without any rewrite configuration the three default authorizers give the
    same answer and ask the delegate once. *)
Lemma default_authorizers_agree_on_metrics :
  (None : option RewriteAttributesConfig) ≫= Config_ResourceAttributes = None ∧
  rewrite_config.Authorize
    (rewrite_config.NewRewritingAuthorizer (spec.recording allowsAll) None)
    noParams getMetrics []
  = default_authorizer.Authorize (spec.recording allowsAll) noParams getMetrics [] ∧
  default_authorizer.Authorize (spec.recording allowsAll) noParams getMetrics []
  = (Returned (DecisionAllow, "", None), [getMetrics]).
Proof.
  split; [reflexivity|].
  split; [|reflexivity].
  apply (default_authorizers_agree (spec.recording allowsAll) None noParams getMetrics []).
  reflexivity.
Defined.

(** With the template for the pods of a namespace and two values in the
    context, the rewriting authorizer and the delegating authorizer agree. *)
Lemma rewriting_authorizers_agree_on_two_namespaces :
  (∀ field, field ∈ spec.fieldsOf podsOfNamespace → (Parse text_template field).2 = None) ∧
  rewrite_config.Authorize
    (rewrite_config.NewRewritingAuthorizer (spec.recording (allowsOnly "ns1"))
       (Some byNamespaceQuery))
    twoNamespaces getMetrics []
  = rewrite.Authorize (spec.recording (allowsOnly "ns1"))
      (rewrite.RewritingAttributesGenerator_Generate (Some podsOfNamespace))
      twoNamespaces getMetrics [].
Proof.
  assert (∀ field, field ∈ spec.fieldsOf podsOfNamespace →
                   (Parse text_template field).2 = None) as Hparse.
  { intros field Hfield.
    repeat (apply elem_of_cons in Hfield as [->|Hfield]); try reflexivity.
    by apply elem_of_nil in Hfield. }
  split; [exact Hparse|].
  refine (proj2 (rewriting_authorizers_agree (spec.recording (allowsOnly "ns1"))
                   byNamespaceQuery podsOfNamespace twoNamespaces getMetrics []
                   eq_refl _ Hparse) _).
  - by eexists.
  - discriminate.
Defined.

(** The entry for the metrics path matches the path written without its
    slash, next to a malformed pattern. *)
Lemma exact_entry_matches_next_to_malformed_pattern :
  "/metrics" ∈ ["/metrics"; "/api/[*"] ∧
  path.NewAlwaysAllowPathAuthorizer ["/metrics"; "/api/[*"] getMetricsNoSlash
  = (DecisionAllow, "", None) ∧
  path.NewAllowPathAuthorizer ["/metrics"; "/api/[*"] getMetricsNoSlash
  = (DecisionNoOpinion, "", None).
Proof.
  assert ("/metrics" ∈ ["/metrics"; "/api/[*"]) as Hentry by (by left).
  split; [exact Hentry|].
  apply (exact_entry_always_matches ["/metrics"; "/api/[*"] "/metrics" getMetricsNoSlash
           Hentry); reflexivity.
Defined.

(** The accepted rule for the pods allows the request for the pods of a
    namespace, and it names no path. *)
Lemma accepted_pods_rule_allows_pods :
  authz.NewStaticAuthorizer [podsRule] = inl [podsRule] ∧
  authz.Authorize [podsRule] (podsIn "ns1")
  = (DecisionAllow, "found corresponding static auth config", None) ∧
  ∃ r, r ∈ [podsRule] ∧ spec.ruleMatches r (podsIn "ns1") ∧
       (ResourceRequest (podsIn "ns1") = false →
        authz.Static_Path r = Path (podsIn "ns1") ∧ Path (podsIn "ns1") ≠ "") ∧
       (ResourceRequest (podsIn "ns1") = true → authz.Static_Path r = "").
Proof.
  split; [reflexivity|]. split; [reflexivity|].
  apply (accepted_static_rules_allow_listed_paths_only [podsRule] [podsRule] (podsIn "ns1"));
    reflexivity.
Defined.

(** Bound to the secrets, the root answers the request for the metrics path
    and the request for another path alike, although the metrics path is on
    the ignore-list. *)
Lemma secrets_root_ignores_the_path :
  authorization.SetupAuthorizer (Some secretsOnly) [] ["/metrics"]
    (Some (recordingDelegate deniesAll))
  = Returned (inl secretsRoot) ∧
  secretsRoot noParams getMetrics [] = secretsRoot noParams getOther [] ∧
  secretsRoot noParams getMetrics []
  = (Returned (DecisionDeny,
               "Forbidden (user=, verb=get, resource=secrets, subresource=): not permitted",
               None),
     [secrets]).
Proof.
  split; [reflexivity|]. split; [|reflexivity].
  apply (SetupAuthorizer_with_resource_attributes_ignores_the_path (Some secretsOnly)
           boundToSecrets [] ["/metrics"] (Some (recordingDelegate deniesAll)) secretsRoot
           noParams getMetrics getOther []); try reflexivity.
  by eexists.
Defined.
